(** * Root finders of [nonlinear_solvers/solvers.py]

    A shallow embedding of the three solvers of the module
    ([newton_raphson], [bisection], [solve]) and the properties the
    specification states about them.

    The Python code is duck-typed over its numbers: it only uses [+], [-],
    [/], [abs], [<] and the integer literals [0] and [2].  The embedding is
    therefore parametric in an arithmetic carrier ([Arith]); two carriers are
    provided, exact rationals ([Q], Python's [fractions.Fraction] and the
    specification's "real number") and IEEE binary64 ([float], Python's
    [float]).

    Effects are explicit: a computation threads a log of events (which solver
    bodies were entered, which caller-supplied handle was evaluated at which
    point) and finishes with a value or a raised exception. *)

From Stdlib Require Import ZArith List Bool String Lia.
From Stdlib Require Import QArith Qabs Qreduction Lqa.
From Stdlib Require Import PrimFloat SpecFloat FloatAxioms.
From Stdlib Require Import DecimalString.
Import ListNotations.

Close Scope Q_scope.
Open Scope nat_scope.

Set Implicit Arguments.

(** ** Arithmetic carriers *)

(** The operations the solvers apply to their numbers.  [div] is the raw
    quotient; Python's [/] first tests the divisor with [is_zero] and raises
    [ZeroDivisionError] (see [pydiv]).  [zero] and [two] are the images of
    the literals [0] and [2]; dividing by the literal [2] never raises. *)
Class Arith (R : Type) : Type := {
  zero : R;
  two : R;
  add : R -> R -> R;
  sub : R -> R -> R;
  div : R -> R -> R;
  is_zero : R -> bool;
  abs : R -> R;
  ltb : R -> R -> bool;
  leb : R -> R -> bool;
  two_nonzero : is_zero two = false
}.

(** Exact rational arithmetic, results in lowest terms. *)
#[export] Instance Q_Arith : Arith Q := {
  zero := 0%Q;
  two := 2%Q;
  add := fun x y => Qred (x + y)%Q;
  sub := fun x y => Qred (x - y)%Q;
  div := fun x y => Qred (x / y)%Q;
  is_zero := fun x => Qeq_bool x 0;
  abs := Qabs;
  ltb := fun x y => negb (Qle_bool y x);
  leb := Qle_bool;
  two_nonzero := eq_refl
}.

(** IEEE 754 binary64, round to nearest even: Python's [float].  Comparisons
    with a NaN are false; both signed zeros are zero divisors. *)
#[export] Instance float_Arith : Arith float := {
  zero := 0%float;
  two := 2%float;
  add := PrimFloat.add;
  sub := PrimFloat.sub;
  div := PrimFloat.div;
  is_zero := fun x => PrimFloat.eqb x 0%float;
  abs := PrimFloat.abs;
  ltb := PrimFloat.ltb;
  leb := PrimFloat.leb;
  two_nonzero := eq_refl
}.

(** ** Exceptions, events and the computation monad *)

(** [str(n)] for a Python [int]. *)
Definition str (n : Z) : string := NilZero.string_of_int (Z.to_int n).

(** The exceptions the module raises or lets through.  [ValueError] is
    raised by [bisection] with the argument tuple
    [(f"starting points {x_0} and {x_1}", "have the same sign on f.")]; the
    embedding keeps the two endpoints the first argument formats. *)
Inductive exn (R : Type) : Type :=
| ConvergenceError (msg : string)
| ValueError (x_0 x_1 : R)
| ZeroDivisionError
| OtherError (name : string).

Arguments ConvergenceError {R} msg.
Arguments ValueError {R} x_0 x_1.
Arguments ZeroDivisionError {R}.
Arguments OtherError {R} name.

Inductive outcome (R A : Type) : Type :=
| Ret (a : A)
| Raise (e : exn R).

Arguments Ret {R A} a.
Arguments Raise {R A} e.

Inductive solver : Type := Newton | Bisection | Solve.

Inductive handle_name : Type := F | DF.

(** What a run leaves in the log: entering the body of a solver, and each
    evaluation of a caller-supplied handle at a point. *)
Inductive event (R : Type) : Type :=
| Enter (s : solver)
| Eval (h : handle_name) (x : R).

Arguments Enter {R} s.
Arguments Eval {R} h x.

Definition log (R : Type) : Type := list (event R).

(** A deterministic function handle: a value or a raised exception at every
    point, nothing else. *)
Definition handle (R : Type) : Type := R -> outcome R R.

(** A computation: from the log so far to an outcome and the extended log. *)
Definition M (R A : Type) : Type := log R -> outcome R A * log R.

Definition ret {R A} (a : A) : M R A := fun l => (Ret a, l).

Definition raise {R A} (e : exn R) : M R A := fun l => (Raise e, l).

Definition bind {R A B} (m : M R A) (k : A -> M R B) : M R B :=
  fun l => match m l with
           | (Ret a, l') => k a l'
           | (Raise e, l') => (Raise e, l')
           end.

Definition emit {R} (e : event R) : M R unit := fun l => (Ret tt, l ++ [e]).

(** [try: m  except <kinds selected by h>: h e]. An exception [h] does not
    select propagates; the log is not rolled back. *)
Definition try_except {R A} (m : M R A) (h : exn R -> option (M R A)) : M R A :=
  fun l => match m l with
           | (Ret a, l') => (Ret a, l')
           | (Raise e, l') =>
               match h e with
               | Some k => k l'
               | None => (Raise e, l')
               end
           end.

Declare Scope solver_scope.
Delimit Scope solver_scope with solver.
Notation "x <- m ;; k" := (bind m (fun x => k))
  (at level 61, m at next level, right associativity) : solver_scope.
Notation "m ;;; k" := (bind m (fun _ => k))
  (at level 61, right associativity) : solver_scope.
Open Scope solver_scope.

(** What one run of a [for] body decides: [return a] out of the function, or
    fall through to the next iteration with the updated locals. *)
Inductive ctrl (A S : Type) : Type :=
| Return (a : A)
| Next (s : S).

Arguments Return {A S} a.
Arguments Next {A S} s.

(** [for _ in range(n): body]. *)
Fixpoint for_range {R A S} (n : nat) (body : S -> M R (ctrl A S)) (s : S)
  : M R (ctrl A S) :=
  match n with
  | O => ret (Next s)
  | S n' =>
      c <- body s ;;
      match c with
      | Return a => ret (Return a)
      | Next s' => for_range n' body s'
      end
  end.

(** ** The solvers *)

Section Solvers.

Context {R : Type} `{Arith R}.

(** [h(x)] for a caller-supplied handle: logged, then its value or its
    exception. *)
Definition call (n : handle_name) (h : handle R) (x : R) : M R R :=
  emit (Eval n x) ;;;
  match h x with
  | Ret y => ret y
  | Raise e => raise e
  end.

(** Python's [a / b]. *)
Definition pydiv (a b : R) : M R R :=
  if is_zero b then raise ZeroDivisionError else ret (div a b).

(** [v < 0]: the sign class of [v]. *)
Definition sign_negative (v : R) : bool := ltb v zero.

(** Body of the loop of [newton_raphson] (lines 35-37). *)
Definition newton_body (f df : handle R) (eps : R) (x_0 : R) : M R (ctrl R R) :=
  fx <- call F f x_0 ;;
  dfx <- call DF df x_0 ;;
  q <- pydiv fx dfx ;;
  let x_0 := sub x_0 q in
  fx' <- call F f x_0 ;;
  if ltb (abs fx') eps then ret (Return x_0) else ret (Next x_0).

Definition newton_raphson (f df : handle R) (x_0 eps : R) (max_its : Z) : M R R :=
  emit (Enter Newton) ;;;
  c <- for_range (Z.to_nat max_its) (newton_body f df eps) x_0 ;;
  match c with
  | Return x => ret x
  | Next _ =>
      raise (ConvergenceError
               ("Newton-Raphson failed to converge after" ++ str max_its ++ " attempts."))
  end.

(** Body of the loop of [bisection] (lines 73-79); the locals are the
    bracket [(x_0, x_1)]. *)
Definition bisection_body (f : handle R) (eps : R) (b : R * R) : M R (ctrl R (R * R)) :=
  let '(x_0, x_1) := b in
  x_2 <- pydiv (add x_0 x_1) two ;;
  fx2 <- call F f x_2 ;;
  if ltb (abs fx2) eps then ret (Return x_2)
  else
    fx2' <- call F f x_2 ;;
    fx0 <- call F f x_0 ;;
    if Bool.eqb (sign_negative fx2') (sign_negative fx0)
    then ret (Next (x_2, x_1))
    else ret (Next (x_0, x_2)).

(** Lines 72-82 of [bisection]: the loop and the failure after it. *)
Definition bisection_loop (f : handle R) (eps : R) (max_its : Z) (b : R * R)
  : M R (ctrl R (R * R)) :=
  for_range (Z.to_nat max_its) (bisection_body f eps) b.

Definition bisection (f : handle R) (x_0 x_1 eps : R) (max_its : Z) : M R R :=
  emit (Enter Bisection) ;;;
  fx0 <- call F f x_0 ;;
  fx1 <- call F f x_1 ;;
  if Bool.eqb (sign_negative fx0) (sign_negative fx1)
  then raise (ValueError x_0 x_1)
  else
    c <- bisection_loop f eps max_its (x_0, x_1) ;;
    match c with
    | Return x => ret x
    | Next _ =>
        raise (ConvergenceError
                 ("bisection failed to converge after" ++ str max_its ++ " attempts."))
    end.

(** The [except ConvergenceError] clause of [solve]. *)
Definition on_convergence_error (k : M R R) (e : exn R) : option (M R R) :=
  match e with
  | ConvergenceError _ => Some k
  | _ => None
  end.

Definition solve (f df : handle R) (x_0 x_1 eps : R) (max_its_n max_its_b : Z) : M R R :=
  emit (Enter Solve) ;;;
  try_except (newton_raphson f df x_0 eps max_its_n)
             (on_convergence_error (bisection f x_0 x_1 eps max_its_b)).

End Solvers.

(** ** Observations and specification-level notions *)

Section Notions.

Context {R : Type} `{Arith R}.

(** The outcome and the events of a computation started on the empty log. *)
Definition result {A} (m : M R A) : outcome R A := fst (m []).

Definition trace {A} (m : M R A) : log R := snd (m []).

(** A computation frames the log: it never reads it, and only appends. *)
Definition frames {A} (m : M R A) : Prop :=
  forall l, m l = (result m, l ++ trace m).

(** The midpoint of a bracket, as line 73 computes it. *)
Definition midpoint (b : R * R) : R := div (add (fst b) (snd b)) two.

(** Is the event an evaluation of a handle selected by [p]? *)
Definition is_eval (p : handle_name -> bool) (e : event R) : bool :=
  match e with
  | Eval h _ => p h
  | Enter _ => false
  end.

(** Number of evaluations, in a log, of the handles selected by [p]. *)
Definition evaluations (p : handle_name -> bool) (t : log R) : nat :=
  List.length (filter (is_eval p) t).

Definition any_handle (h : handle_name) : bool := true.

Definition only (h0 h : handle_name) : bool :=
  match h0, h with
  | F, F | DF, DF => true
  | _, _ => false
  end.

(** The log never records entering the bracketing solver. *)
Definition never_enters_bisection (t : log R) : Prop := ~ In (Enter Bisection) t.

(** What [bisection] makes of the outcome of its loop (lines 75, 81-82). *)
Definition after_bisection_loop (max_its : Z) (c : outcome R (ctrl R (R * R)))
  : outcome R R :=
  match c with
  | Ret (Return x) => Ret x
  | Ret (Next _) =>
      Raise (ConvergenceError
               ("bisection failed to converge after" ++ str max_its ++ " attempts."))
  | Raise e => Raise e
  end.

(** The two endpoints of a bracket are in opposite sign classes. *)
Definition opposite_signs (f : handle R) (b : R * R) : Prop :=
  exists y0 y1, f (fst b) = Ret y0 /\ f (snd b) = Ret y1
                /\ sign_negative y0 = negb (sign_negative y1).

(** [iterates f eps k b b']: started on the bracket [b], the loop body has
    run [k] times without returning, and [b'] is the bracket at the start of
    the next iteration. *)
Inductive iterates (f : handle R) (eps : R) : nat -> R * R -> R * R -> Prop :=
| iterates_O b : iterates f eps 0 b b
| iterates_S k b b' b'' :
    iterates f eps k b b' ->
    result (bisection_body f eps b') = Ret (Next b'') ->
    iterates f eps (S k) b b''.

(** The Newton sequence as the specification words it.  The update
    [x - f(x)/df(x)], where it is defined: both handles return and the
    derivative is not a zero divisor. *)
Definition newton_update (f df : handle R) (x : R) : option R :=
  match f x, df x with
  | Ret fx, Ret dfx => if is_zero dfx then None else Some (sub x (div fx dfx))
  | _, _ => None
  end.

(** The [k]-th term of the sequence started at [x]. *)
Fixpoint newton_iterate (f df : handle R) (k : nat) (x : R) : option R :=
  match k with
  | O => Some x
  | S k' =>
      match newton_update f df x with
      | Some x' => newton_iterate f df k' x'
      | None => None
      end
  end.

(** The convergence predicate [abs(f(x)) < eps], where [f(x)] is defined. *)
Definition within_tolerance (f : handle R) (eps x : R) : option bool :=
  match f x with
  | Ret y => Some (ltb (abs y) eps)
  | Raise _ => None
  end.

(** The bounds of the specification: two evaluations per iteration. *)
Definition bisection_two_per_iteration (f : handle R) x_0 x_1 eps max_its : Prop :=
  (Z.of_nat (evaluations any_handle (trace (bisection_loop f eps max_its (x_0, x_1))))
   <= 2 * max_its)%Z.

Definition newton_two_per_iteration (f df : handle R) x_0 eps max_its : Prop :=
  (Z.of_nat (evaluations any_handle (trace (newton_raphson f df x_0 eps max_its)))
   <= 2 * max_its)%Z.

(** Python's [min(a, b)] and [max(a, b)]. *)
Definition pymin (a b : R) : R := if ltb b a then b else a.

Definition pymax (a b : R) : R := if ltb a b then b else a.

(** [f] has a zero at a point of the closed interval from [x_0] to [x_1]. *)
Definition zero_crossing_inside (f : handle R) (x_0 x_1 : R) : Prop :=
  exists z y, leb x_0 z = true /\ leb z x_1 = true
              /\ f z = Ret y /\ is_zero y = true.

(** The convergence statement of the specification, at one input. *)
Definition bisection_converges (f : handle R) (x_0 x_1 eps : R) (max_its : Z) : Prop :=
  zero_crossing_inside f x_0 x_1 ->
  opposite_signs f (x_0, x_1) ->
  ltb zero eps = true -> (0 < max_its)%Z ->
  exists r y, result (bisection f x_0 x_1 eps max_its) = Ret r
              /\ f r = Ret y /\ ltb (abs y) eps = true.

(** The returned value lies between the original endpoints. *)
Definition result_in_bracket (f : handle R) (x_0 x_1 eps : R) (max_its : Z) : Prop :=
  forall r, result (bisection f x_0 x_1 eps max_its) = Ret r ->
            leb (pymin x_0 x_1) r = true /\ leb r (pymax x_0 x_1) = true.

(** The value [r] meets the tolerance: [f(r)] is defined and
    [abs(f(r)) < eps]. *)
Definition meets_tolerance (f : handle R) (eps r : R) : Prop :=
  exists y, f r = Ret y /\ ltb (abs y) eps = true.

(** The handle returns a value at every point. *)
Definition total (h : handle R) : Prop := forall x, exists y, h x = Ret y.

(** The outcome of a loop of [bisection] with the two endpoints of the
    bracket exchanged. *)
Definition mirror (c : outcome R (ctrl R (R * R))) : outcome R (ctrl R (R * R)) :=
  match c with
  | Ret (Next (a, b)) => Ret (Next (b, a))
  | _ => c
  end.

(** The brackets of [bisection] as the specification words them.  One
    update: the midpoint replaces [x_0] when it is in the sign class of
    [x_0], and [x_1] otherwise; defined where [f] returns. *)
Definition bisection_update (f : handle R) (b : R * R) : option (R * R) :=
  match f (midpoint b), f (fst b) with
  | Ret ym, Ret y0 =>
      Some (if Bool.eqb (sign_negative ym) (sign_negative y0)
            then (midpoint b, snd b)
            else (fst b, midpoint b))
  | _, _ => None
  end.

(** The bracket after [k] updates of [b]. *)
Fixpoint bisection_bracket (f : handle R) (k : nat) (b : R * R) : option (R * R) :=
  match k with
  | O => Some b
  | S k' =>
      match bisection_update f b with
      | Some b' => bisection_bracket f k' b'
      | None => None
      end
  end.

(** [m] lies between the two endpoints of [b], whichever is the larger. *)
Definition between (b : R * R) (m : R) : bool :=
  (leb (fst b) m && leb m (snd b)) || (leb (snd b) m && leb m (fst b)).

(** The endpoints are comparable numbers: each lies between their [min] and
    their [max].  False when one of them is a NaN. *)
Definition ordered_endpoints (x_0 x_1 : R) : bool :=
  leb (pymin x_0 x_1) x_0 && leb x_0 (pymax x_0 x_1)
  && leb (pymin x_0 x_1) x_1 && leb x_1 (pymax x_0 x_1).

(** Every midpoint that a run of at most [n] iterations from the bracket
    [b] computes lies between the endpoints of its own bracket: no sum
    [x_0 + x_1] overflowed. *)
Fixpoint midpoints_stay (f : handle R) (eps : R) (n : nat) (b : R * R) : bool :=
  match n with
  | O => true
  | S n' =>
      between b (midpoint b)
      && match within_tolerance f eps (midpoint b) with
         | Some false =>
             match bisection_update f b with
             | Some b' => midpoints_stay f eps n' b'
             | None => true
             end
         | _ => true
         end
  end.

End Notions.

(** ** Concrete inputs *)

Section Inputs.

(** [lambda x: x - 2], on any carrier. *)
Definition line {R : Type} `{Arith R} : handle R := fun x => Ret (sub x two).

(** [lambda x: 2*x - 4] and its derivative [lambda x: 2.0]. *)
Definition f_linear : handle float := fun x => Ret (2 * x - 4)%float.

Definition df_linear : handle float := fun _ => Ret 2%float.

(** [lambda x: x*x - 2], its derivative [lambda x: 2*x], and a wrong
    derivative [lambda x: 0.0]. *)
Definition f_square : handle float := fun x => Ret (x * x - 2)%float.

Definition df_square : handle float := fun x => Ret (2 * x)%float.

Definition df_zero : handle float := fun _ => Ret 0%float.

(** [lambda x: 2.0**1023 / x - 0.75], decreasing through zero at
    [2.0**1025 / 3]. *)
Definition f_hyperbola : handle float := fun x =>
  if PrimFloat.eqb x 0%float then Raise ZeroDivisionError
  else Ret (0x1p1023 / x - 0.75)%float.

(** [2.0**-10] and [2.0**-7]. *)
Definition eps10 : float := 0.0009765625%float.

Definition eps7 : float := 0.0078125%float.

End Inputs.

(** ** Runs from the empty log

    Every computation below frames the log ([frames]): started on a log [l]
    it ends in [result m] and leaves [l ++ trace m].  Statements about
    [result] and [trace] are therefore statements about every run. *)

Section Runs.

Context {R : Type}.

Lemma frames_ret A (a : A) : frames (ret a : M R A).
Proof. intro l. unfold result, trace, ret. simpl. now rewrite app_nil_r. Qed.

Lemma frames_raise A (e : exn R) : frames (raise e : M R A).
Proof. intro l. unfold result, trace, raise. simpl. now rewrite app_nil_r. Qed.

Lemma frames_emit (e : event R) : frames (emit e).
Proof. intro l. reflexivity. Qed.

Lemma bind_run A B (m : M R A) (k : A -> M R B) l :
  frames m ->
  bind m k l = match result m with
               | Ret a => k a (l ++ trace m)
               | Raise e => (Raise e, l ++ trace m)
               end.
Proof. intro Hm. unfold bind. rewrite (Hm l). now destruct (result m). Qed.

Lemma result_bind A B (m : M R A) (k : A -> M R B) :
  frames m -> (forall a, frames (k a)) ->
  result (bind m k) = match result m with
                      | Ret a => result (k a)
                      | Raise e => Raise e
                      end.
Proof.
  intros Hm Hk. unfold result at 1. rewrite bind_run by assumption.
  destruct (result m) as [a|e]; simpl; [now rewrite (Hk a)|reflexivity].
Qed.

Lemma trace_bind A B (m : M R A) (k : A -> M R B) :
  frames m -> (forall a, frames (k a)) ->
  trace (bind m k) = trace m ++ match result m with
                                | Ret a => trace (k a)
                                | Raise _ => []
                                end.
Proof.
  intros Hm Hk. unfold trace at 1. rewrite bind_run by assumption.
  destruct (result m) as [a|e]; simpl.
  - now rewrite (Hk a).
  - now rewrite app_nil_r.
Qed.

Lemma frames_bind A B (m : M R A) (k : A -> M R B) :
  frames m -> (forall a, frames (k a)) -> frames (bind m k).
Proof.
  intros Hm Hk l.
  rewrite result_bind, trace_bind, bind_run by assumption.
  destruct (result m) as [a|e].
  - now rewrite (Hk a), app_assoc.
  - now rewrite app_nil_r.
Qed.

Lemma try_except_run A (m : M R A) h l :
  frames m ->
  try_except m h l = match result m with
                     | Ret a => (Ret a, l ++ trace m)
                     | Raise e => match h e with
                                  | Some k => k (l ++ trace m)
                                  | None => (Raise e, l ++ trace m)
                                  end
                     end.
Proof. intro Hm. unfold try_except. rewrite (Hm l). now destruct (result m). Qed.

Lemma frames_try_except A (m : M R A) h :
  frames m -> (forall e k, h e = Some k -> frames k) -> frames (try_except m h).
Proof.
  intros Hm Hh l. unfold result, trace.
  rewrite !try_except_run by assumption.
  destruct (result m) as [a|e]; simpl; try reflexivity.
  destruct (h e) as [k|] eqn:E; simpl; try reflexivity.
  rewrite (Hh e k E (l ++ trace m)), (Hh e k E (trace m)). simpl.
  now rewrite app_assoc.
Qed.

Lemma frames_for_range A S (body : S -> M R (ctrl A S)) :
  (forall s, frames (body s)) -> forall n s, frames (for_range n body s).
Proof.
  intros Hb n. induction n as [|n IH]; intro s; simpl.
  - apply frames_ret.
  - apply frames_bind; [apply Hb|]. intros [a|s']; [apply frames_ret|apply IH].
Qed.

End Runs.

Create HintDb frames.
#[export] Hint Resolve frames_ret frames_raise frames_emit frames_bind
  frames_try_except frames_for_range : frames.

(** ** Runs of the building blocks *)

Section BlockFacts.

Context {R : Type} `{Arith R}.

Lemma call_run n (h : handle R) x l : call n h x l = (h x, l ++ [Eval n x]).
Proof. unfold call, bind, emit, ret, raise. now destruct (h x). Qed.

Lemma frames_call n (h : handle R) x : frames (call n h x).
Proof. intro l. unfold result, trace. now rewrite !call_run. Qed.

Lemma result_call n (h : handle R) x : result (call n h x) = h x.
Proof. unfold result. now rewrite call_run. Qed.

Lemma trace_call n (h : handle R) x : trace (call n h x) = [Eval n x].
Proof. unfold trace. now rewrite call_run. Qed.

Lemma pydiv_run (a b : R) l :
  pydiv a b l = (if is_zero b then Raise ZeroDivisionError else Ret (div a b), l).
Proof. unfold pydiv. now destruct (is_zero b). Qed.

Lemma frames_pydiv (a b : R) : frames (pydiv a b).
Proof. intro l. unfold result, trace. rewrite !pydiv_run. simpl. now rewrite app_nil_r. Qed.

Lemma result_pydiv (a b : R) :
  result (pydiv a b) = if is_zero b then Raise ZeroDivisionError else Ret (div a b).
Proof. unfold result. now rewrite pydiv_run. Qed.

Lemma trace_pydiv (a b : R) : trace (pydiv a b) = [].
Proof. unfold trace. now rewrite pydiv_run. Qed.

Lemma result_emit (e : event R) : result (emit e) = Ret tt.
Proof. reflexivity. Qed.

Lemma trace_emit (e : event R) : trace (emit e) = [e].
Proof. reflexivity. Qed.

Lemma result_ret A (a : A) : result (ret a : M R A) = Ret a.
Proof. reflexivity. Qed.

Lemma trace_ret A (a : A) : trace (ret a : M R A) = [].
Proof. reflexivity. Qed.

Lemma result_raise A (e : exn R) : result (raise e : M R A) = Raise e.
Proof. reflexivity. Qed.

Lemma trace_raise A (e : exn R) : trace (raise e : M R A) = [].
Proof. reflexivity. Qed.

Lemma frames_on_convergence_error (k : M R R) e k' :
  frames k -> on_convergence_error k e = Some k' -> frames k'.
Proof. intros Hk. destruct e; simpl; intro E; now inversion E; subst. Qed.

End BlockFacts.

(** Every computation built from the blocks frames the log. *)
Ltac prove_frames :=
  repeat first
    [ assumption
    | apply frames_ret | apply frames_raise | apply frames_emit
    | apply frames_call | apply frames_pydiv
    | apply frames_for_range; intro
    | apply frames_bind; [|intro]
    | match goal with
      | |- forall _, _ => intro
      | |- frames (if ?b then _ else _) => destruct b
      | |- frames (match ?c with _ => _ end) => destruct c
      | |- frames (let '(_, _) := ?p in _) => destruct p
      end
    | solve [auto with frames] ].

(** Symbolic execution of a run from the empty log. *)
Ltac run_step :=
  first
    [ rewrite result_bind by prove_frames
    | rewrite trace_bind by prove_frames
    | rewrite result_call | rewrite trace_call
    | rewrite result_pydiv | rewrite trace_pydiv
    | rewrite result_emit | rewrite trace_emit
    | rewrite result_ret | rewrite trace_ret
    | rewrite result_raise | rewrite trace_raise ].

Section SolverFrames.

Context {R : Type} `{Arith R}.

Lemma frames_newton_body (f df : handle R) eps x : frames (newton_body f df eps x).
Proof. unfold newton_body. prove_frames. Qed.

Lemma frames_newton_raphson (f df : handle R) x_0 eps max_its :
  frames (newton_raphson f df x_0 eps max_its).
Proof. unfold newton_raphson, newton_body. prove_frames. Qed.

Lemma frames_bisection_body (f : handle R) eps b : frames (bisection_body f eps b).
Proof. unfold bisection_body. prove_frames. Qed.

Lemma frames_bisection_loop (f : handle R) eps max_its b :
  frames (bisection_loop f eps max_its b).
Proof. unfold bisection_loop, bisection_body. prove_frames. Qed.

Lemma frames_bisection (f : handle R) x_0 x_1 eps max_its :
  frames (bisection f x_0 x_1 eps max_its).
Proof. unfold bisection, bisection_loop, bisection_body. prove_frames. Qed.

Lemma frames_solve (f df : handle R) x_0 x_1 eps max_its_n max_its_b :
  frames (solve f df x_0 x_1 eps max_its_n max_its_b).
Proof.
  unfold solve. apply frames_bind; [apply frames_emit|intros _].
  apply frames_try_except; [apply frames_newton_raphson|].
  intros e k. apply frames_on_convergence_error, frames_bisection.
Qed.

End SolverFrames.

#[export] Hint Resolve frames_call frames_pydiv frames_newton_body
  frames_newton_raphson frames_bisection_body frames_bisection_loop
  frames_bisection frames_solve : frames.

(** ** Run equations of the loops and the solvers *)

Section SolverRuns.

Context {R : Type} `{Arith R}.

Lemma result_for_range_S A S (body : S -> M R (ctrl A S)) n s :
  (forall s, frames (body s)) ->
  result (for_range (Datatypes.S n) body s) =
  match result (body s) with
  | Ret (Return a) => Ret (Return a)
  | Ret (Next s') => result (for_range n body s')
  | Raise e => Raise e
  end.
Proof.
  intro Hb. simpl. rewrite result_bind; [|apply Hb|].
  - destruct (result (body s)) as [[a|s']|e]; reflexivity.
  - intros [a|s']; [apply frames_ret|apply frames_for_range, Hb].
Qed.

Lemma trace_for_range_S A S (body : S -> M R (ctrl A S)) n s :
  (forall s, frames (body s)) ->
  trace (for_range (Datatypes.S n) body s) =
  trace (body s) ++ match result (body s) with
                    | Ret (Next s') => trace (for_range n body s')
                    | _ => []
                    end.
Proof.
  intro Hb. simpl. rewrite trace_bind; [|apply Hb|].
  - destruct (result (body s)) as [[a|s']|e]; reflexivity.
  - intros [a|s']; [apply frames_ret|apply frames_for_range, Hb].
Qed.

(** One Newton step seen from outside: the three evaluations, the division,
    the tolerance test after the update. *)
Lemma result_newton_body (f df : handle R) eps x :
  result (newton_body f df eps x) =
  match f x with
  | Raise e => Raise e
  | Ret fx =>
      match df x with
      | Raise e => Raise e
      | Ret dfx =>
          if is_zero dfx then Raise ZeroDivisionError
          else match f (sub x (div fx dfx)) with
               | Raise e => Raise e
               | Ret fx' =>
                   if ltb (abs fx') eps
                   then Ret (Return (sub x (div fx dfx)))
                   else Ret (Next (sub x (div fx dfx)))
               end
      end
  end.
Proof.
  unfold newton_body. repeat run_step.
  destruct (f x) as [fx|e]; [|reflexivity]. repeat run_step.
  destruct (df x) as [dfx|e]; [|reflexivity]. repeat run_step.
  destruct (is_zero dfx); [reflexivity|]. repeat run_step.
  destruct (f (sub x (div fx dfx))) as [fx'|e]; [|reflexivity].
  now destruct (ltb (abs fx') eps).
Qed.

Lemma trace_newton_body (f df : handle R) eps x :
  trace (newton_body f df eps x) =
  Eval F x ::
  match f x with
  | Raise _ => []
  | Ret fx =>
      Eval DF x ::
      match df x with
      | Raise _ => []
      | Ret dfx =>
          if is_zero dfx then [] else [Eval F (sub x (div fx dfx))]
      end
  end.
Proof.
  unfold newton_body. repeat run_step. simpl.
  destruct (f x) as [fx|e]; [|reflexivity]. repeat run_step. simpl.
  destruct (df x) as [dfx|e]; [|reflexivity]. repeat run_step. simpl.
  destruct (is_zero dfx); [reflexivity|]. repeat run_step. simpl.
  destruct (f (sub x (div fx dfx))) as [fx'|e]; [|reflexivity].
  now destruct (ltb (abs fx') eps).
Qed.

Lemma result_newton_raphson (f df : handle R) x_0 eps max_its :
  result (newton_raphson f df x_0 eps max_its) =
  match result (for_range (Z.to_nat max_its) (newton_body f df eps) x_0) with
  | Ret (Return x) => Ret x
  | Ret (Next _) =>
      Raise (ConvergenceError
               ("Newton-Raphson failed to converge after" ++ str max_its ++ " attempts."))
  | Raise e => Raise e
  end.
Proof.
  unfold newton_raphson. repeat run_step.
  destruct (result (for_range _ _ _)) as [[a|s']|e]; reflexivity.
Qed.

Lemma trace_newton_raphson (f df : handle R) x_0 eps max_its :
  trace (newton_raphson f df x_0 eps max_its) =
  Enter Newton :: trace (for_range (Z.to_nat max_its) (newton_body f df eps) x_0).
Proof.
  unfold newton_raphson. repeat run_step. simpl. f_equal.
  destruct (result (for_range _ _ _)) as [[a|s']|e]; simpl;
    now rewrite app_nil_r.
Qed.

(** One bisection step seen from outside. *)
Lemma result_bisection_body (f : handle R) eps b :
  result (bisection_body f eps b) =
  match f (midpoint b) with
  | Raise e => Raise e
  | Ret fx2 =>
      if ltb (abs fx2) eps then Ret (Return (midpoint b))
      else match f (fst b) with
           | Raise e => Raise e
           | Ret fx0 =>
               if Bool.eqb (sign_negative fx2) (sign_negative fx0)
               then Ret (Next (midpoint b, snd b))
               else Ret (Next (fst b, midpoint b))
           end
  end.
Proof.
  destruct b as [x_0 x_1]. unfold bisection_body, midpoint. simpl.
  repeat run_step. rewrite two_nonzero. repeat run_step.
  destruct (f (div (add x_0 x_1) two)) as [fx2|e] eqn:E2; [|reflexivity].
  destruct (ltb (abs fx2) eps); [reflexivity|].
  repeat run_step. rewrite E2. repeat run_step.
  destruct (f x_0) as [fx0|e]; [|reflexivity].
  now destruct (Bool.eqb _ _).
Qed.

Lemma trace_bisection_body (f : handle R) eps b :
  trace (bisection_body f eps b) =
  Eval F (midpoint b) ::
  match f (midpoint b) with
  | Raise _ => []
  | Ret fx2 =>
      if ltb (abs fx2) eps then []
      else [Eval F (midpoint b); Eval F (fst b)]
  end.
Proof.
  destruct b as [x_0 x_1]. unfold bisection_body, midpoint. simpl.
  repeat run_step. rewrite two_nonzero. repeat run_step. simpl.
  destruct (f (div (add x_0 x_1) two)) as [fx2|e] eqn:E2; [|reflexivity].
  destruct (ltb (abs fx2) eps); [reflexivity|].
  repeat run_step. rewrite E2. repeat run_step. simpl.
  destruct (f x_0) as [fx0|e]; [|reflexivity].
  now destruct (Bool.eqb _ _).
Qed.

Lemma result_bisection (f : handle R) x_0 x_1 eps max_its :
  result (bisection f x_0 x_1 eps max_its) =
  match f x_0 with
  | Raise e => Raise e
  | Ret fx0 =>
      match f x_1 with
      | Raise e => Raise e
      | Ret fx1 =>
          if Bool.eqb (sign_negative fx0) (sign_negative fx1)
          then Raise (ValueError x_0 x_1)
          else match result (bisection_loop f eps max_its (x_0, x_1)) with
               | Ret (Return x) => Ret x
               | Ret (Next _) =>
                   Raise (ConvergenceError
                            ("bisection failed to converge after" ++ str max_its
                             ++ " attempts."))
               | Raise e => Raise e
               end
      end
  end.
Proof.
  unfold bisection. repeat run_step.
  destruct (f x_0) as [fx0|e]; [|reflexivity]. repeat run_step.
  destruct (f x_1) as [fx1|e]; [|reflexivity].
  destruct (Bool.eqb _ _); [reflexivity|]. repeat run_step.
  destruct (result (bisection_loop _ _ _ _)) as [[a|s']|e]; reflexivity.
Qed.

Lemma trace_bisection (f : handle R) x_0 x_1 eps max_its :
  trace (bisection f x_0 x_1 eps max_its) =
  Enter Bisection :: Eval F x_0 ::
  match f x_0 with
  | Raise _ => []
  | Ret fx0 =>
      Eval F x_1 ::
      match f x_1 with
      | Raise _ => []
      | Ret fx1 =>
          if Bool.eqb (sign_negative fx0) (sign_negative fx1) then []
          else trace (bisection_loop f eps max_its (x_0, x_1))
      end
  end.
Proof.
  unfold bisection. repeat run_step. simpl. do 2 f_equal.
  destruct (f x_0) as [fx0|e]; [|reflexivity]. repeat run_step. simpl. f_equal.
  destruct (f x_1) as [fx1|e]; [|reflexivity].
  destruct (Bool.eqb _ _); [reflexivity|]. repeat run_step.
  destruct (result (bisection_loop _ _ _ _)) as [[a|s']|e]; simpl;
    now rewrite app_nil_r.
Qed.

Lemma solve_run (f df : handle R) x_0 x_1 eps max_its_n max_its_b :
  result (solve f df x_0 x_1 eps max_its_n max_its_b) =
    match result (newton_raphson f df x_0 eps max_its_n) with
    | Ret r => Ret r
    | Raise (ConvergenceError _) => result (bisection f x_0 x_1 eps max_its_b)
    | Raise e => Raise e
    end
  /\ trace (solve f df x_0 x_1 eps max_its_n max_its_b) =
    Enter Solve :: trace (newton_raphson f df x_0 eps max_its_n) ++
    match result (newton_raphson f df x_0 eps max_its_n) with
    | Raise (ConvergenceError _) => trace (bisection f x_0 x_1 eps max_its_b)
    | _ => []
    end.
Proof.
  unfold result at 1, trace at 1, solve.
  rewrite bind_run by apply frames_emit. simpl.
  rewrite try_except_run by apply frames_newton_raphson.
  destruct (result (newton_raphson _ _ _ _ _)) as [r|e]; simpl.
  - now rewrite app_nil_r.
  - destruct e; simpl; try now rewrite app_nil_r.
    now rewrite (frames_bisection f x_0 x_1 eps max_its_b).
Qed.

End SolverRuns.

(** ** Facts about logs *)

Section LogFacts.

Context {R : Type}.

Lemma evaluations_app p (t u : log R) :
  evaluations p (t ++ u) = evaluations p t + evaluations p u.
Proof. unfold evaluations. now rewrite filter_app, List.length_app. Qed.

Lemma only_evaluations_never_enter (t : log R) :
  Forall (fun e => exists h x, e = Eval h x) t -> never_enters_bisection t.
Proof.
  intros Ht Hin. rewrite Forall_forall in Ht.
  destruct (Ht _ Hin) as (h & x & E). discriminate E.
Qed.

End LogFacts.

(** ** The composed solver and the empty budget *)

Section Composition.

Context {R : Type} `{Arith R}.

Lemma trace_for_range_Forall A S (P : event R -> Prop) (body : S -> M R (ctrl A S)) :
  (forall s, frames (body s)) ->
  (forall s, Forall P (trace (body s))) ->
  forall n s, Forall P (trace (for_range n body s)).
Proof.
  intros Hf Hb n. induction n as [|n IH]; intro s.
  - constructor.
  - rewrite trace_for_range_S by assumption. apply Forall_app. split; [apply Hb|].
    destruct (result (body s)) as [[a|s']|e]; auto.
Qed.

Lemma newton_body_only_evaluates (f df : handle R) eps x :
  Forall (fun e => exists h y, e = Eval h y) (trace (newton_body f df eps x)).
Proof.
  rewrite trace_newton_body.
  destruct (f x); [destruct (df x); [destruct (is_zero _)|]|];
    repeat constructor; eauto.
Qed.

(** The derivative-based solver alone never enters the bracketing one. *)
Lemma newton_never_enters_bisection (f df : handle R) x_0 eps max_its :
  never_enters_bisection (trace (newton_raphson f df x_0 eps max_its)).
Proof.
  rewrite trace_newton_raphson. intros [E|Hin]; [discriminate E|].
  revert Hin. apply only_evaluations_never_enter.
  apply trace_for_range_Forall;
    [apply frames_newton_body | apply newton_body_only_evaluates].
Qed.

(** A run of [bisection] starts by entering it. *)
Lemma bisection_enters (f : handle R) x_0 x_1 eps max_its :
  In (Enter Bisection) (trace (bisection f x_0 x_1 eps max_its)).
Proof. rewrite trace_bisection. now left. Qed.

(** X1. A zero derivative at the current point: the division on line 35 raises
    [ZeroDivisionError] after [f] and [df] were evaluated once each, and
    [newton_raphson] lets it through. *)
Lemma newton_raphson_zero_derivative (f df : handle R) x_0 eps max_its fx dfx :
  (0 < max_its)%Z ->
  f x_0 = Ret fx -> df x_0 = Ret dfx -> is_zero dfx = true ->
  result (newton_raphson f df x_0 eps max_its) = Raise ZeroDivisionError
  /\ trace (newton_raphson f df x_0 eps max_its)
     = [Enter Newton; Eval F x_0; Eval DF x_0].
Proof.
  intros Hpos Ef Edf Hz.
  rewrite result_newton_raphson, trace_newton_raphson.
  destruct (Z.to_nat max_its) as [|n] eqn:En; [lia|].
  rewrite result_for_range_S, trace_for_range_S by apply frames_newton_body.
  rewrite result_newton_body, trace_newton_body, Ef, Edf, Hz.
  split; reflexivity.
Qed.

(** C1. [solve] runs [newton_raphson] first; it enters [bisection] only when
    [newton_raphson] ended in a [ConvergenceError], and then its outcome is
    that of [bisection]; any other exception of the Newton phase (a
    [ZeroDivisionError] of [f(x)/df(x)], an exception of a handle) is the
    outcome of [solve] unchanged, and [bisection] is not entered. *)
Theorem solve_falls_back_only_on_convergence_error
    (f df : handle R) x_0 x_1 eps max_its_n max_its_b :
  let newton := newton_raphson f df x_0 eps max_its_n in
  let fallback := bisection f x_0 x_1 eps max_its_b in
  let s := solve f df x_0 x_1 eps max_its_n max_its_b in
  (exists t, trace s = Enter Solve :: trace newton ++ t)
  /\ (In (Enter Bisection) (trace s) <->
      exists msg, result newton = Raise (ConvergenceError msg))
  /\ (forall msg, result newton = Raise (ConvergenceError msg) ->
      result s = result fallback
      /\ trace s = Enter Solve :: trace newton ++ trace fallback)
  /\ (forall e, result newton = Raise e ->
      (forall msg, e <> ConvergenceError msg) ->
      result s = Raise e
      /\ trace s = Enter Solve :: trace newton
      /\ never_enters_bisection (trace s)).
Proof.
  intros newton fallback s.
  destruct (solve_run f df x_0 x_1 eps max_its_n max_its_b) as [Hr Ht].
  fold newton fallback s in Hr, Ht.
  pose proof (newton_never_enters_bisection f df x_0 eps max_its_n) as Hn.
  fold newton in Hn.
  assert (Hquiet : trace s = Enter Solve :: trace newton ->
                   never_enters_bisection (trace s)).
  { intros E Hin. rewrite E in Hin.
    destruct Hin as [D|Hin]; [discriminate D|]. now apply Hn. }
  split; [|split; [split|split]].
  - eexists. exact Ht.
  - intro Hin. destruct (result newton) as [r|[msg| | |]] eqn:E;
      try (exfalso; rewrite app_nil_r in Ht; now apply (Hquiet Ht)).
    now exists msg.
  - intros [msg E]. rewrite Ht, E. right. apply in_or_app. right.
    apply bisection_enters.
  - intros msg E. now rewrite Hr, Ht, E.
  - intros e E Hne. rewrite E in Hr, Ht.
    assert (Ht' : trace s = Enter Solve :: trace newton).
    { rewrite Ht. destruct e; try now rewrite app_nil_r. now destruct (Hne msg). }
    split; [|split; [exact Ht'|exact (Hquiet Ht')]].
    rewrite Hr. destruct e; try reflexivity. now destruct (Hne msg).
Qed.

(** C2. When [newton_raphson] returns [r], [solve] returns [r], its log is
    that of the Newton run after the entry of [solve], [bisection] is not
    entered, and neither [x_1] nor the bisection budget changes the run. *)
Theorem solve_returns_newton_result
    (f df : handle R) x_0 eps max_its_n r :
  result (newton_raphson f df x_0 eps max_its_n) = Ret r ->
  forall x_1 max_its_b,
    result (solve f df x_0 x_1 eps max_its_n max_its_b) = Ret r
    /\ trace (solve f df x_0 x_1 eps max_its_n max_its_b) =
       Enter Solve :: trace (newton_raphson f df x_0 eps max_its_n)
    /\ never_enters_bisection (trace (solve f df x_0 x_1 eps max_its_n max_its_b))
    /\ forall x_1' max_its_b' l,
        solve f df x_0 x_1' eps max_its_n max_its_b' l =
        solve f df x_0 x_1 eps max_its_n max_its_b l.
Proof.
  intros Hn x_1 max_its_b.
  destruct (solve_run f df x_0 x_1 eps max_its_n max_its_b) as [Hr Ht].
  rewrite Hn in Hr, Ht. rewrite app_nil_r in Ht.
  split; [exact Hr|split; [exact Ht|split]].
  - rewrite Ht. intros [D|Hin]; [discriminate D|].
    now apply (newton_never_enters_bisection f df x_0 eps max_its_n).
  - intros x_1' max_its_b' l.
    destruct (solve_run f df x_0 x_1' eps max_its_n max_its_b') as [Hr' Ht'].
    rewrite Hn in Hr', Ht'. rewrite app_nil_r in Ht'.
    rewrite (frames_solve f df x_0 x_1' eps max_its_n max_its_b' l).
    rewrite (frames_solve f df x_0 x_1 eps max_its_n max_its_b l).
    now rewrite Hr, Hr', Ht, Ht'.
Qed.

(** C10. With [max_its = 0] the loop of [newton_raphson] has no iteration:
    the call raises [ConvergenceError] at once and evaluates neither [f] nor
    [df], whatever [x_0] is. *)
Theorem newton_raphson_zero_budget (f df : handle R) x_0 eps l :
  newton_raphson f df x_0 eps 0 l =
    (Raise (ConvergenceError "Newton-Raphson failed to converge after0 attempts."),
     l ++ [Enter Newton])
  /\ evaluations any_handle (trace (newton_raphson f df x_0 eps 0)) = 0.
Proof. split; reflexivity. Qed.

End Composition.

(** ** The bracketing solver: entry test and sign-change invariant *)

Section Bracketing.

Context {R : Type} `{Arith R}.

(** The brackets [iterates] names are those the loop goes through. *)
Lemma iterates_for_range f eps k b b' :
  iterates f eps k b b' ->
  forall m, result (for_range (k + m) (bisection_body f eps) b) =
            result (for_range m (bisection_body f eps) b').
Proof.
  induction 1 as [b|k b b' b'' _ IH Hstep]; intro m; [reflexivity|].
  replace (S k + m) with (k + S m) by lia. rewrite IH.
  rewrite result_for_range_S by apply frames_bisection_body.
  now rewrite Hstep.
Qed.

Lemma bisection_loop_starts f eps n b :
  exists t, trace (for_range (S n) (bisection_body f eps) b) = Eval F (midpoint b) :: t.
Proof.
  rewrite trace_for_range_S by apply frames_bisection_body.
  rewrite trace_bisection_body. simpl. eexists. reflexivity.
Qed.

(** C4. With [f(x_0)] and [f(x_1)] defined, [bisection] raises [ValueError]
    on the two endpoints right after the two evaluations of the entry test,
    with no iteration, exactly when [f(x_0) < 0] and [f(x_1) < 0] are the
    same boolean (zero counts as not negative); otherwise it runs its loop
    on the bracket [(x_0, x_1)]. *)
Theorem bisection_entry_test (f : handle R) x_0 x_1 eps max_its y0 y1 :
  f x_0 = Ret y0 -> f x_1 = Ret y1 ->
  let run := bisection f x_0 x_1 eps max_its in
  ((result run = Raise (ValueError x_0 x_1)
    /\ trace run = [Enter Bisection; Eval F x_0; Eval F x_1])
   <-> sign_negative y0 = sign_negative y1)
  /\ (sign_negative y0 <> sign_negative y1 ->
      result run = after_bisection_loop max_its
                     (result (bisection_loop f eps max_its (x_0, x_1)))
      /\ trace run = [Enter Bisection; Eval F x_0; Eval F x_1]
                     ++ trace (bisection_loop f eps max_its (x_0, x_1))).
Proof.
  intros E0 E1 run. subst run.
  rewrite result_bisection, trace_bisection, E0, E1.
  destruct (Bool.eqb (sign_negative y0) (sign_negative y1)) eqn:E.
  - apply Bool.eqb_prop in E. split; [tauto|]. intro Hne. now destruct Hne.
  - apply Bool.eqb_false_iff in E. split; [|intros _; split; reflexivity].
    split; [|intro E'; now destruct E].
    intros [Hr Ht]. exfalso. unfold bisection_loop in *.
    destruct (Z.to_nat max_its) as [|n].
    + simpl in Hr. discriminate Hr.
    + destruct (bisection_loop_starts f eps n (x_0, x_1)) as [t Et].
      rewrite Et in Ht. discriminate Ht.
Qed.

Lemma bisection_step_preserves f eps b b' :
  opposite_signs f b ->
  result (bisection_body f eps b) = Ret (Next b') ->
  opposite_signs f b'
  /\ exists y2 y0, f (midpoint b) = Ret y2 /\ f (fst b) = Ret y0
      /\ b' = if Bool.eqb (sign_negative y2) (sign_negative y0)
              then (midpoint b, snd b) else (fst b, midpoint b).
Proof.
  intros (y0 & y1 & E0 & E1 & Hs). rewrite result_bisection_body, E0.
  destruct (f (midpoint b)) as [y2|e] eqn:E2; [|discriminate].
  destruct (ltb (abs y2) eps); [discriminate|].
  destruct (Bool.eqb (sign_negative y2) (sign_negative y0)) eqn:E;
    intro Hb; inversion Hb; subst b'; clear Hb;
    (split; [|exists y2, y0; now rewrite E]).
  - apply Bool.eqb_prop in E. exists y2, y1. simpl. now rewrite E.
  - exists y0, y2. simpl. repeat split; try assumption.
    destruct (sign_negative y2), (sign_negative y0); simpl in *; congruence.
Qed.

(** C5. Once the entry test of [bisection] has passed, the endpoints of the
    bracket are in opposite sign classes at the start of every iteration of
    the loop; each iteration that goes on replaces [x_0] by the midpoint
    when the midpoint is in the sign class of [x_0], and [x_1] otherwise,
    and this keeps the endpoints in opposite classes. *)
Theorem bisection_sign_change_invariant (f : handle R) x_0 x_1 eps y0 y1 :
  f x_0 = Ret y0 -> f x_1 = Ret y1 ->
  Bool.eqb (sign_negative y0) (sign_negative y1) = false ->
  (forall k b, iterates f eps k (x_0, x_1) b -> opposite_signs f b)
  /\ (forall b b',
        opposite_signs f b ->
        result (bisection_body f eps b) = Ret (Next b') ->
        opposite_signs f b'
        /\ exists y2 yb, f (midpoint b) = Ret y2 /\ f (fst b) = Ret yb
            /\ b' = if Bool.eqb (sign_negative y2) (sign_negative yb)
                    then (midpoint b, snd b) else (fst b, midpoint b)).
Proof.
  intros E0 E1 E. split; [|intros b b'; apply bisection_step_preserves].
  intros k b Hit. remember (x_0, x_1) as b0 eqn:Eb.
  induction Hit as [b|k b b' b'' _ IH Hstep].
  - subst b. exists y0, y1. simpl. repeat split; try assumption.
    destruct (sign_negative y0), (sign_negative y1); simpl in *; congruence.
  - exact (proj1 (bisection_step_preserves _ (IH Eb) Hstep)).
Qed.

End Bracketing.

(** ** The derivative-based solver: the Newton sequence *)

Section NewtonSequence.

Context {R : Type} `{Arith R}.

Lemma newton_body_step f df eps x x' :
  newton_update f df x = Some x' ->
  result (newton_body f df eps x) =
  match f x' with
  | Raise e => Raise e
  | Ret y => if ltb (abs y) eps then Ret (Return x') else Ret (Next x')
  end.
Proof.
  unfold newton_update. rewrite result_newton_body.
  destruct (f x) as [fx|e]; [|discriminate].
  destruct (df x) as [dfx|e]; [|discriminate].
  destruct (is_zero dfx); [discriminate|].
  intro E. inversion E. reflexivity.
Qed.

Lemma newton_loop_returns f df eps k :
  forall n x xk,
    1 <= k <= n ->
    newton_iterate f df k x = Some xk ->
    within_tolerance f eps xk = Some true ->
    (forall j xj, 1 <= j < k -> newton_iterate f df j x = Some xj ->
                  within_tolerance f eps xj = Some false) ->
    result (for_range n (newton_body f df eps) x) = Ret (Return xk).
Proof.
  induction k as [|k IH]; intros n x xk Hk Hit Htol Hbefore; [lia|].
  destruct n as [|n]; [lia|].
  rewrite result_for_range_S by apply frames_newton_body.
  simpl in Hit. destruct (newton_update f df x) as [x'|] eqn:Eu; [|discriminate].
  rewrite (newton_body_step _ _ eps _ Eu).
  destruct k as [|k].
  - simpl in Hit. inversion Hit; subst x'. unfold within_tolerance in Htol.
    destruct (f xk) as [y|e]; [|discriminate]. inversion Htol as [E]. now rewrite E.
  - assert (E1 : within_tolerance f eps x' = Some false).
    { apply (Hbefore 1); [lia|]. simpl. now rewrite Eu. }
    unfold within_tolerance in E1.
    destruct (f x') as [y|e]; [|discriminate]. inversion E1 as [E]. rewrite E.
    apply IH; try assumption; [lia|].
    intros j xj Hj Hitj. apply (Hbefore (S j)); [lia|].
    simpl. now rewrite Eu.
Qed.

Lemma newton_loop_exhausts f df eps n :
  forall x,
    (forall j, 1 <= j <= n ->
               exists xj, newton_iterate f df j x = Some xj
                          /\ within_tolerance f eps xj = Some false) ->
    exists x', result (for_range n (newton_body f df eps) x) = Ret (Next x').
Proof.
  induction n as [|n IH]; intros x Hall.
  - exists x. reflexivity.
  - rewrite result_for_range_S by apply frames_newton_body.
    destruct (Hall 1 ltac:(lia)) as (x1 & Hit & Htol). simpl in Hit.
    destruct (newton_update f df x) as [x'|] eqn:Eu; [|discriminate].
    inversion Hit; subst x1. rewrite (newton_body_step _ _ eps _ Eu).
    unfold within_tolerance in Htol.
    destruct (f x') as [y|e]; [|discriminate]. inversion Htol as [E]. rewrite E.
    apply IH. intros j Hj. destruct (Hall (S j) ltac:(lia)) as (xj & Hitj & Htolj).
    exists xj. split; [|assumption]. simpl in Hitj. now rewrite Eu in Hitj.
Qed.

(** C3. [newton_raphson] follows the sequence [x <- x - f(x)/df(x)] from
    [x_0]: it returns the first term of index [k >= 1] (the test comes after
    the update, so [x_0] itself is never tested) with [abs(f(x)) < eps],
    when there is one among the first [max_its] terms; when the first
    [max_its] terms all fail the test, it raises [ConvergenceError] with a
    message that carries [max_its]. *)
Theorem newton_raphson_first_converged_iterate (f df : handle R) x_0 eps max_its :
  (forall k xk,
      1 <= k <= Z.to_nat max_its ->
      newton_iterate f df k x_0 = Some xk ->
      within_tolerance f eps xk = Some true ->
      (forall j xj, 1 <= j < k -> newton_iterate f df j x_0 = Some xj ->
                    within_tolerance f eps xj = Some false) ->
      result (newton_raphson f df x_0 eps max_its) = Ret xk)
  /\ ((forall j, 1 <= j <= Z.to_nat max_its ->
                 exists xj, newton_iterate f df j x_0 = Some xj
                            /\ within_tolerance f eps xj = Some false) ->
      result (newton_raphson f df x_0 eps max_its) =
      Raise (ConvergenceError
               ("Newton-Raphson failed to converge after" ++ str max_its ++ " attempts."))).
Proof.
  split.
  - intros k xk Hk Hit Htol Hbefore. rewrite result_newton_raphson.
    now rewrite newton_loop_returns with (k := k) (xk := xk).
  - intro Hall. rewrite result_newton_raphson.
    destruct newton_loop_exhausts
      with (f := f) (df := df) (eps := eps) (n := Z.to_nat max_its) (x := x_0)
      as [x' E]; [assumption|]. now rewrite E.
Qed.

End NewtonSequence.

(** ** Evaluation counts *)

Section EvaluationCounts.

Context {R : Type} `{Arith R}.

Lemma for_range_evaluations A S p c (body : S -> M R (ctrl A S)) :
  (forall s, frames (body s)) ->
  (forall s, evaluations p (trace (body s)) <= c) ->
  forall n s, evaluations p (trace (for_range n body s)) <= n * c.
Proof.
  intros Hf Hb n. induction n as [|n IH]; intro s; [apply Nat.le_refl|].
  rewrite trace_for_range_S by assumption. rewrite evaluations_app.
  specialize (Hb s). rewrite Nat.mul_succ_l.
  assert (E0 : evaluations p (@nil (event R)) = 0) by reflexivity.
  destruct (result (body s)) as [[a|s']|e]; [| specialize (IH s') |];
    rewrite ?E0; lia.
Qed.

Lemma newton_body_evaluations (f df : handle R) eps x :
  evaluations any_handle (trace (newton_body f df eps x)) <= 3
  /\ evaluations (only F) (trace (newton_body f df eps x)) <= 2
  /\ evaluations (only DF) (trace (newton_body f df eps x)) <= 1.
Proof.
  rewrite trace_newton_body.
  destruct (f x); [destruct (df x); [destruct (is_zero _)|]|];
    unfold evaluations; simpl; lia.
Qed.

Lemma bisection_body_evaluations (f : handle R) eps b :
  evaluations any_handle (trace (bisection_body f eps b)) <= 3.
Proof.
  rewrite trace_bisection_body.
  destruct (f (midpoint b)); [destruct (ltb _ _)|]; unfold evaluations; simpl; lia.
Qed.

(** C7, as the code has it. Each iteration of the loop of [bisection]
    evaluates [f] at most three times ([f(x_2)] for the tolerance test, then
    [f(x_2)] and [f(x_0)] for the sign test), so the loop makes at most
    [3 * max_its] evaluations, after the two of the entry test; each
    iteration of [newton_raphson] evaluates [f] at most twice and [df] at
    most once, at most [3 * max_its] evaluations together. *)
Theorem solver_evaluation_bounds (f df : handle R) x_0 x_1 eps max_its :
  evaluations any_handle (trace (bisection_loop f eps max_its (x_0, x_1)))
    <= 3 * Z.to_nat max_its
  /\ evaluations any_handle (trace (bisection f x_0 x_1 eps max_its))
    <= 2 + 3 * Z.to_nat max_its
  /\ evaluations any_handle (trace (newton_raphson f df x_0 eps max_its))
    <= 3 * Z.to_nat max_its
  /\ evaluations (only F) (trace (newton_raphson f df x_0 eps max_its))
    <= 2 * Z.to_nat max_its
  /\ evaluations (only DF) (trace (newton_raphson f df x_0 eps max_its))
    <= Z.to_nat max_its.
Proof.
  assert (Hloop : evaluations any_handle (trace (bisection_loop f eps max_its (x_0, x_1)))
                  <= 3 * Z.to_nat max_its).
  { unfold bisection_loop. rewrite (Nat.mul_comm 3).
    apply for_range_evaluations;
      [apply frames_bisection_body | intro; apply bisection_body_evaluations]. }
  split; [exact Hloop|]. split.
  - rewrite trace_bisection.
    destruct (f x_0); [destruct (f x_1); [destruct (Bool.eqb _ _)|]|];
      unfold evaluations in *; simpl; lia.
  - rewrite trace_newton_raphson.
    assert (Hc : forall p, evaluations p
               (Enter Newton :: trace (for_range (Z.to_nat max_its) (newton_body f df eps) x_0))
             = evaluations p (trace (for_range (Z.to_nat max_its) (newton_body f df eps) x_0)))
      by reflexivity.
    rewrite !Hc. rewrite (Nat.mul_comm 3), (Nat.mul_comm 2).
    split; [|split].
    + apply for_range_evaluations;
        [apply frames_newton_body | intro; apply newton_body_evaluations].
    + apply for_range_evaluations;
        [apply frames_newton_body | intro; apply newton_body_evaluations].
    + eapply Nat.le_trans; [apply for_range_evaluations with (c := 1)|lia];
        [apply frames_newton_body | intro; apply newton_body_evaluations].
Qed.

End EvaluationCounts.

(** ** The bracketing solver: what it returns *)

Section BracketingResult.

Context {R : Type} `{Arith R}.

Lemma bisection_loop_total (f : handle R) eps :
  (forall x, exists y, f x = Ret y) ->
  forall n b,
    match result (for_range n (bisection_body f eps) b) with
    | Ret (Return r) => exists y, f r = Ret y /\ ltb (abs y) eps = true
    | Ret (Next _) =>
        evaluations any_handle (trace (for_range n (bisection_body f eps) b)) = 3 * n
    | Raise _ => False
    end.
Proof.
  intros Htot n. induction n as [|n IH]; intro b; [reflexivity|].
  rewrite result_for_range_S, trace_for_range_S by apply frames_bisection_body.
  rewrite result_bisection_body, trace_bisection_body.
  destruct (Htot (midpoint b)) as [y2 E2]. rewrite E2.
  destruct (ltb (abs y2) eps) eqn:Etol; [now exists y2|].
  destruct (Htot (fst b)) as [y0 E0]. rewrite E0.
  destruct (Bool.eqb _ _);
    match goal with
    | |- context [for_range n _ ?b'] =>
        specialize (IH b');
        destruct (result (for_range n (bisection_body f eps) b')) as [[r|s']|e];
        try assumption;
        rewrite evaluations_app, IH; unfold evaluations; simpl; lia
    end.
Qed.

Lemma bisection_update_step (f : handle R) eps b b' :
  bisection_update f b = Some b' ->
  within_tolerance f eps (midpoint b) = Some false ->
  result (bisection_body f eps b) = Ret (Next b').
Proof.
  unfold bisection_update, within_tolerance. rewrite result_bisection_body.
  destruct (f (midpoint b)) as [ym|e]; [|discriminate].
  destruct (f (fst b)) as [y0|e]; [|discriminate].
  intros E Et. inversion Et as [Et']. rewrite Et'. inversion E.
  now destruct (Bool.eqb _ _).
Qed.

Lemma bisection_loop_first (f : handle R) eps k :
  forall n b bk,
    k < n ->
    bisection_bracket f k b = Some bk ->
    within_tolerance f eps (midpoint bk) = Some true ->
    (forall j bj, j < k -> bisection_bracket f j b = Some bj ->
                  within_tolerance f eps (midpoint bj) = Some false) ->
    result (for_range n (bisection_body f eps) b) = Ret (Return (midpoint bk)).
Proof.
  induction k as [|k IH]; intros n b bk Hk Hbk Htol Hbefore;
    (destruct n as [|n]; [lia|]);
    rewrite result_for_range_S by apply frames_bisection_body.
  - simpl in Hbk. inversion Hbk; subst bk. rewrite result_bisection_body.
    unfold within_tolerance in Htol.
    destruct (f (midpoint b)) as [ym|e]; [|discriminate].
    inversion Htol as [E]. now rewrite E.
  - simpl in Hbk.
    destruct (bisection_update f b) as [b'|] eqn:Eu; [|discriminate].
    rewrite bisection_update_step with (b' := b');
      [|exact Eu|apply (Hbefore 0); [lia|reflexivity]].
    apply IH; try assumption; [lia|].
    intros j bj Hj Hbj. apply (Hbefore (S j)); [lia|]. simpl. now rewrite Eu.
Qed.

Lemma bisection_loop_none (f : handle R) eps :
  total f ->
  forall n b,
    (forall j bj, j < n -> bisection_bracket f j b = Some bj ->
                  within_tolerance f eps (midpoint bj) = Some false) ->
    exists b', result (for_range n (bisection_body f eps) b) = Ret (Next b').
Proof.
  intros Hf n. induction n as [|n IH]; intros b Hall; [now exists b|].
  rewrite result_for_range_S by apply frames_bisection_body.
  assert (Hu : exists b', bisection_update f b = Some b').
  { unfold bisection_update.
    destruct (Hf (midpoint b)) as [ym Em]. destruct (Hf (fst b)) as [y0 E0].
    rewrite Em, E0. eexists. reflexivity. }
  destruct Hu as [b' Eu].
  rewrite bisection_update_step with (b' := b');
    [|exact Eu|apply (Hall 0); [lia|reflexivity]].
  apply IH. intros j bj Hj Hbj. apply (Hall (S j)); [lia|].
  simpl. now rewrite Eu.
Qed.

(** C6, as the code has it. For a handle [f] that returns at every point and
    a bracket whose endpoints are in opposite sign classes, [bisection]
    goes through the brackets [bisection_bracket f 0], [bisection_bracket f 1],
    ... of the bisection rule.  It returns the midpoint of the first of the
    first [max_its] brackets whose midpoint meets the tolerance; when none
    of these [max_its] midpoints meets it, it raises [ConvergenceError] with
    a message that carries [max_its], after three evaluations in each of
    the [max_its] iterations.  Nothing else happens: it either returns an
    [r] with [abs(f(r)) < eps] or raises that [ConvergenceError]. *)
Theorem bisection_converges_or_exhausts (f : handle R) x_0 x_1 eps max_its :
  (forall x, exists y, f x = Ret y) ->
  opposite_signs f (x_0, x_1) ->
  (forall k b,
      k < Z.to_nat max_its ->
      bisection_bracket f k (x_0, x_1) = Some b ->
      within_tolerance f eps (midpoint b) = Some true ->
      (forall j bj, j < k -> bisection_bracket f j (x_0, x_1) = Some bj ->
                    within_tolerance f eps (midpoint bj) = Some false) ->
      result (bisection f x_0 x_1 eps max_its) = Ret (midpoint b))
  /\ ((forall j bj, j < Z.to_nat max_its ->
                    bisection_bracket f j (x_0, x_1) = Some bj ->
                    within_tolerance f eps (midpoint bj) = Some false) ->
      result (bisection f x_0 x_1 eps max_its) =
      Raise (ConvergenceError
               ("bisection failed to converge after" ++ str max_its ++ " attempts."))
      /\ evaluations any_handle (trace (bisection_loop f eps max_its (x_0, x_1)))
         = 3 * Z.to_nat max_its)
  /\ ((exists r y, result (bisection f x_0 x_1 eps max_its) = Ret r
                   /\ f r = Ret y /\ ltb (abs y) eps = true)
      \/ (result (bisection f x_0 x_1 eps max_its) =
          Raise (ConvergenceError
                   ("bisection failed to converge after" ++ str max_its ++ " attempts."))
          /\ evaluations any_handle (trace (bisection_loop f eps max_its (x_0, x_1)))
             = 3 * Z.to_nat max_its)).
Proof.
  intros Htot (y0 & y1 & E0 & E1 & Hs). simpl in E0, E1.
  rewrite result_bisection, E0, E1.
  replace (Bool.eqb (sign_negative y0) (sign_negative y1)) with false
    by (rewrite Hs; now destruct (sign_negative y1)).
  unfold bisection_loop.
  pose proof (@bisection_loop_total f eps Htot (Z.to_nat max_its) (x_0, x_1)) as Hl.
  split; [|split].
  - intros k b Hk Hb Htol Hbefore.
    now rewrite bisection_loop_first with (k := k) (bk := b).
  - intro Hall.
    destruct (@bisection_loop_none f eps Htot (Z.to_nat max_its) (x_0, x_1) Hall)
      as [b' E].
    rewrite E in Hl |- *. now split.
  - destruct (result (for_range _ _ _)) as [[r|s']|e].
    + left. destruct Hl as (y & Ey & Hy). now exists r, y.
    + right. now split.
    + destruct Hl.
Qed.

Lemma between_inside (lo hi : R) b m :
  (forall x y z : R, leb x y = true -> leb y z = true -> leb x z = true) ->
  leb lo (fst b) = true -> leb (fst b) hi = true ->
  leb lo (snd b) = true -> leb (snd b) hi = true ->
  between b m = true ->
  leb lo m = true /\ leb m hi = true.
Proof.
  intros Htr A1 A2 B1 B2 Hb. unfold between in Hb.
  apply orb_true_iff in Hb.
  destruct Hb as [Hb|Hb]; apply andb_true_iff in Hb; destruct Hb as [H1 H2]; split.
  - exact (Htr _ _ _ A1 H1).
  - exact (Htr _ _ _ H2 B2).
  - exact (Htr _ _ _ B1 H1).
  - exact (Htr _ _ _ H2 A2).
Qed.

(** Brackets nest: when each midpoint lies between the endpoints of its own
    bracket, a bracket inside [lo, hi] leads to a returned value inside
    [lo, hi]. *)
Lemma bisection_loop_nested (f : handle R) eps (lo hi : R) :
  (forall x y z : R, leb x y = true -> leb y z = true -> leb x z = true) ->
  forall n b r,
    leb lo (fst b) = true -> leb (fst b) hi = true ->
    leb lo (snd b) = true -> leb (snd b) hi = true ->
    midpoints_stay f eps n b = true ->
    result (for_range n (bisection_body f eps) b) = Ret (Return r) ->
    leb lo r = true /\ leb r hi = true.
Proof.
  intros Htr n. induction n as [|n IH]; intros b r A1 A2 B1 B2 Hm; [discriminate|].
  simpl in Hm. apply andb_true_iff in Hm. destruct Hm as [Hb Hm].
  pose proof (@between_inside lo hi b (midpoint b) Htr A1 A2 B1 B2 Hb) as [M1 M2].
  rewrite result_for_range_S by apply frames_bisection_body.
  rewrite result_bisection_body.
  unfold within_tolerance, bisection_update in Hm.
  destruct (f (midpoint b)) as [ym|e]; [|discriminate].
  destruct (ltb (abs ym) eps).
  - intro E. inversion E; subst r. now split.
  - destruct (f (fst b)) as [y0|e]; [|discriminate].
    destruct (Bool.eqb _ _); apply IH; assumption.
Qed.

(** C9, as the code has it. When the endpoints are comparable numbers and
    every midpoint the run computes lies between the endpoints of its own
    bracket (no sum [x_0 + x_1] overflowed), in an arithmetic whose [<=] is
    transitive, every value [bisection] returns is the midpoint of a bracket
    nested in the original one, so it lies between [min(x_0, x_1)] and
    [max(x_0, x_1)]. *)
Theorem bisection_result_in_bracket (f : handle R) x_0 x_1 eps max_its :
  (forall x y z : R, leb x y = true -> leb y z = true -> leb x z = true) ->
  ordered_endpoints x_0 x_1 = true ->
  midpoints_stay f eps (Z.to_nat max_its) (x_0, x_1) = true ->
  result_in_bracket f x_0 x_1 eps max_its.
Proof.
  intros Htr Ho Hm r. rewrite result_bisection.
  destruct (f x_0) as [y0|e]; [|discriminate].
  destruct (f x_1) as [y1|e]; [|discriminate].
  destruct (Bool.eqb _ _); [discriminate|].
  unfold bisection_loop.
  destruct (result (for_range _ _ _)) as [[a|s']|e] eqn:E; try discriminate.
  intro Hr. inversion Hr; subst a.
  unfold ordered_endpoints in Ho.
  apply andb_true_iff in Ho. destruct Ho as [Ho B2].
  apply andb_true_iff in Ho. destruct Ho as [Ho B1].
  apply andb_true_iff in Ho. destruct Ho as [A1 A2].
  exact (@bisection_loop_nested f eps (pymin x_0 x_1) (pymax x_0 x_1) Htr
           (Z.to_nat max_its) (x_0, x_1) r A1 A2 B1 B2 Hm E).
Qed.

End BracketingResult.

(** ** Further properties of the solvers *)

Section Further.

Context {R : Type} `{Arith R}.

Lemma newton_body_returns_within (f df : handle R) eps x r :
  result (newton_body f df eps x) = Ret (Return r) -> meets_tolerance f eps r.
Proof.
  rewrite result_newton_body.
  destruct (f x) as [fx|e]; [|discriminate].
  destruct (df x) as [dfx|e]; [|discriminate].
  destruct (is_zero dfx); [discriminate|].
  destruct (f (sub x (div fx dfx))) as [y|e] eqn:Ey; [|discriminate].
  destruct (ltb (abs y) eps) eqn:Et; intro Hr; inversion Hr; subst r.
  now exists y.
Qed.

Lemma newton_loop_returns_within (f df : handle R) eps n :
  forall x r,
    result (for_range n (newton_body f df eps) x) = Ret (Return r) ->
    meets_tolerance f eps r.
Proof.
  induction n as [|n IH]; intros x r; [discriminate|].
  rewrite result_for_range_S by apply frames_newton_body.
  destruct (result (newton_body f df eps x)) as [[r'|x']|e] eqn:E.
  - intro Hr. inversion Hr; subst r'. now apply newton_body_returns_within with df x.
  - apply IH.
  - discriminate.
Qed.

Lemma bisection_body_returns_within (f : handle R) eps b r :
  result (bisection_body f eps b) = Ret (Return r) -> meets_tolerance f eps r.
Proof.
  rewrite result_bisection_body.
  destruct (f (midpoint b)) as [y|e] eqn:Ey; [|discriminate].
  destruct (ltb (abs y) eps) eqn:Et.
  - intro Hr. inversion Hr; subst r. now exists y.
  - destruct (f (fst b)); [destruct (Bool.eqb _ _)|]; discriminate.
Qed.

Lemma bisection_loop_returns_within (f : handle R) eps n :
  forall b r,
    result (for_range n (bisection_body f eps) b) = Ret (Return r) ->
    meets_tolerance f eps r.
Proof.
  induction n as [|n IH]; intros b r; [discriminate|].
  rewrite result_for_range_S by apply frames_bisection_body.
  destruct (result (bisection_body f eps b)) as [[r'|b']|e] eqn:E.
  - intro Hr. inversion Hr; subst r'. now apply bisection_body_returns_within with b.
  - apply IH.
  - discriminate.
Qed.

Lemma newton_raphson_returns_within (f df : handle R) x_0 eps max_its r :
  result (newton_raphson f df x_0 eps max_its) = Ret r -> meets_tolerance f eps r.
Proof.
  rewrite result_newton_raphson.
  destruct (result (for_range _ _ _)) as [[r'|x']|e] eqn:E; try discriminate.
  intro Hr. inversion Hr; subst r'. eapply newton_loop_returns_within, E.
Qed.

Lemma bisection_returns_within (f : handle R) x_0 x_1 eps max_its r :
  result (bisection f x_0 x_1 eps max_its) = Ret r -> meets_tolerance f eps r.
Proof.
  rewrite result_bisection. unfold bisection_loop.
  destruct (f x_0); [|discriminate]. destruct (f x_1); [|discriminate].
  destruct (Bool.eqb _ _); [discriminate|].
  destruct (result (for_range _ _ _)) as [[r'|x']|e] eqn:E; try discriminate.
  intro Hr. inversion Hr; subst r'. eapply bisection_loop_returns_within, E.
Qed.

(** X2. No solver returns a value it has not tested: whatever
    [newton_raphson], [bisection] or [solve] returns, [f] is defined there
    and [abs(f(r)) < eps]. *)
Theorem returned_values_meet_tolerance
    (f df : handle R) x_0 x_1 eps max_its_n max_its_b r :
  (result (newton_raphson f df x_0 eps max_its_n) = Ret r ->
   meets_tolerance f eps r)
  /\ (result (bisection f x_0 x_1 eps max_its_b) = Ret r ->
      meets_tolerance f eps r)
  /\ (result (solve f df x_0 x_1 eps max_its_n max_its_b) = Ret r ->
      meets_tolerance f eps r).
Proof.
  split; [apply newton_raphson_returns_within|].
  split; [apply bisection_returns_within|].
  rewrite (proj1 (solve_run f df x_0 x_1 eps max_its_n max_its_b)).
  destruct (result (newton_raphson f df x_0 eps max_its_n)) as [r'|e] eqn:En.
  - intro Hr. inversion Hr; subst r'. eapply newton_raphson_returns_within, En.
  - destruct e; try discriminate. apply bisection_returns_within.
Qed.

(** X3. A budget that is zero or negative gives a loop without iteration.
    [newton_raphson] raises [ConvergenceError] at once, with the budget as
    written in its message. [bisection] still makes its entry test first:
    after evaluating [f] at the two endpoints, and nothing else, it raises
    [ValueError] when they are in the same sign class, and
    [ConvergenceError] otherwise. *)
Theorem nonpositive_budget (f df : handle R) x_0 x_1 eps max_its y0 y1 :
  (max_its <= 0)%Z ->
  f x_0 = Ret y0 -> f x_1 = Ret y1 ->
  (result (newton_raphson f df x_0 eps max_its) =
     Raise (ConvergenceError
              ("Newton-Raphson failed to converge after" ++ str max_its ++ " attempts."))
   /\ trace (newton_raphson f df x_0 eps max_its) = [Enter Newton])
  /\ (result (bisection f x_0 x_1 eps max_its) =
        (if Bool.eqb (sign_negative y0) (sign_negative y1)
         then Raise (ValueError x_0 x_1)
         else Raise (ConvergenceError
                       ("bisection failed to converge after" ++ str max_its
                        ++ " attempts.")))
      /\ trace (bisection f x_0 x_1 eps max_its)
         = [Enter Bisection; Eval F x_0; Eval F x_1]).
Proof.
  intros Hle E0 E1.
  rewrite result_newton_raphson, trace_newton_raphson.
  rewrite result_bisection, trace_bisection, E0, E1. unfold bisection_loop.
  replace (Z.to_nat max_its) with 0%nat by lia.
  repeat split; now destruct (Bool.eqb _ _).
Qed.

(** With handles that return everywhere, a Newton loop ends in a tested
    value, in [ZeroDivisionError], or, after all its iterations, with two
    evaluations of [f] and one of [df] for each of them. *)
Lemma newton_loop_total (f df : handle R) eps :
  total f -> total df ->
  forall n x,
    match result (for_range n (newton_body f df eps) x) with
    | Ret (Return r) => meets_tolerance f eps r
    | Ret (Next _) =>
        evaluations (only F) (trace (for_range n (newton_body f df eps) x)) = 2 * n
        /\ evaluations (only DF) (trace (for_range n (newton_body f df eps) x)) = n
    | Raise e => e = ZeroDivisionError
    end.
Proof.
  intros Hf Hdf n. induction n as [|n IH]; intro x; [now split|].
  rewrite result_for_range_S, trace_for_range_S by apply frames_newton_body.
  rewrite result_newton_body, trace_newton_body.
  destruct (Hf x) as [fx Ef]. destruct (Hdf x) as [dfx Edf]. rewrite Ef, Edf.
  destruct (is_zero dfx); [reflexivity|].
  destruct (Hf (sub x (div fx dfx))) as [y Ey]. rewrite Ey.
  destruct (ltb (abs y) eps) eqn:Et; [now exists y|].
  specialize (IH (sub x (div fx dfx))).
  destruct (result (for_range n (newton_body f df eps) (sub x (div fx dfx))))
    as [[r|x']|e]; try assumption.
  destruct IH as [IHf IHdf]. rewrite !evaluations_app, IHf, IHdf.
  unfold evaluations. simpl. lia.
Qed.

(** X5. With handles that return everywhere, the only [ConvergenceError]
    of [newton_raphson] is that of the exhausted budget, and by then it has
    evaluated [f] exactly [2 * max_its] times and [df] exactly [max_its]
    times. *)
Theorem newton_exhaustion_counts (f df : handle R) x_0 eps max_its msg :
  total f -> total df ->
  result (newton_raphson f df x_0 eps max_its) = Raise (ConvergenceError msg) ->
  msg = ("Newton-Raphson failed to converge after" ++ str max_its ++ " attempts.")%string
  /\ evaluations (only F) (trace (newton_raphson f df x_0 eps max_its))
     = 2 * Z.to_nat max_its
  /\ evaluations (only DF) (trace (newton_raphson f df x_0 eps max_its))
     = Z.to_nat max_its.
Proof.
  intros Hf Hdf. rewrite result_newton_raphson, trace_newton_raphson.
  pose proof (newton_loop_total eps Hf Hdf (Z.to_nat max_its) x_0) as Hl.
  destruct (result (for_range _ _ _)) as [[r|x']|e]; try discriminate.
  - intro E. inversion E. split; [reflexivity|exact Hl].
  - subst e. discriminate.
Qed.

Lemma evaluations_le_any p (t : log R) :
  evaluations p t <= evaluations any_handle t.
Proof.
  induction t as [|e t IH]; [apply Nat.le_refl|].
  unfold evaluations in *. simpl.
  destruct e as [s|h x]; simpl; [exact IH|].
  destruct (p h); simpl; lia.
Qed.

Lemma evaluations_none p (t : log R) :
  Forall (fun e => is_eval p e = false) t -> evaluations p t = 0.
Proof.
  induction 1 as [|e t He _ IH]; [reflexivity|].
  unfold evaluations in *. simpl. now rewrite He.
Qed.

Lemma newton_raphson_evaluations_le (f df : handle R) x_0 eps max_its :
  evaluations any_handle (trace (newton_raphson f df x_0 eps max_its))
    <= 3 * Z.to_nat max_its
  /\ evaluations (only DF) (trace (newton_raphson f df x_0 eps max_its))
    <= Z.to_nat max_its.
Proof.
  rewrite trace_newton_raphson.
  change (evaluations any_handle
            (trace (for_range (Z.to_nat max_its) (newton_body f df eps) x_0))
          <= 3 * Z.to_nat max_its
          /\ evaluations (only DF)
               (trace (for_range (Z.to_nat max_its) (newton_body f df eps) x_0))
             <= Z.to_nat max_its).
  split.
  - rewrite Nat.mul_comm. apply for_range_evaluations;
      [apply frames_newton_body | intro; apply newton_body_evaluations].
  - eapply Nat.le_trans; [apply for_range_evaluations with (c := 1)|lia];
      [apply frames_newton_body | intro; apply newton_body_evaluations].
Qed.

Lemma bisection_evaluations_le (f : handle R) x_0 x_1 eps max_its :
  evaluations any_handle (trace (bisection f x_0 x_1 eps max_its))
    <= 2 + 3 * Z.to_nat max_its
  /\ evaluations (only DF) (trace (bisection f x_0 x_1 eps max_its)) = 0.
Proof.
  split.
  - assert (Hloop : evaluations any_handle
                      (trace (bisection_loop f eps max_its (x_0, x_1)))
                    <= 3 * Z.to_nat max_its).
    { unfold bisection_loop. rewrite Nat.mul_comm. apply for_range_evaluations;
        [apply frames_bisection_body | intro; apply bisection_body_evaluations]. }
    rewrite trace_bisection.
    destruct (f x_0); [destruct (f x_1); [destruct (Bool.eqb _ _)|]|];
      unfold evaluations in *; simpl; lia.
  - apply evaluations_none. rewrite trace_bisection.
    assert (Hloop : Forall (fun e : event R => is_eval (only DF) e = false)
                      (trace (bisection_loop f eps max_its (x_0, x_1)))).
    { unfold bisection_loop. apply trace_for_range_Forall;
        [apply frames_bisection_body|].
      intro b. rewrite trace_bisection_body.
      destruct (f (midpoint b)); [destruct (ltb _ _)|]; repeat constructor. }
    destruct (f x_0); [destruct (f x_1); [destruct (Bool.eqb _ _)|]|];
      repeat constructor; assumption.
Qed.

(** X6. One call of [solve] evaluates its handles at most
    [3 * max_its_n + 2 + 3 * max_its_b] times, and [df] at most [max_its_n]
    times: the fallback never evaluates the derivative. *)
Theorem solve_evaluation_bound
    (f df : handle R) x_0 x_1 eps max_its_n max_its_b :
  evaluations any_handle (trace (solve f df x_0 x_1 eps max_its_n max_its_b))
    <= 3 * Z.to_nat max_its_n + (2 + 3 * Z.to_nat max_its_b)
  /\ evaluations (only DF) (trace (solve f df x_0 x_1 eps max_its_n max_its_b))
    <= Z.to_nat max_its_n.
Proof.
  rewrite (proj2 (solve_run f df x_0 x_1 eps max_its_n max_its_b)).
  destruct (newton_raphson_evaluations_le f df x_0 eps max_its_n) as [Hn Hnd].
  destruct (bisection_evaluations_le f x_0 x_1 eps max_its_b) as [Hb Hbd].
  assert (Hc : forall p (t : log R),
             evaluations p (Enter Solve :: t) = evaluations p t) by reflexivity.
  rewrite !Hc, !evaluations_app.
  assert (E0 : forall p, evaluations p (@nil (event R)) = 0) by reflexivity.
  destruct (result (newton_raphson f df x_0 eps max_its_n)) as [r|[msg| | |]];
    rewrite ?E0; lia.
Qed.

(** X7. With handles that return everywhere, [solve] ends in one of four
    ways only: a value that meets the tolerance; the [ZeroDivisionError] of
    the Newton phase; the [ValueError] of [bisection] on [(x_0, x_1)]; the
    [ConvergenceError] of [bisection].  The [ConvergenceError] of
    [newton_raphson] never leaves [solve]. *)
Theorem solve_outcomes (f df : handle R) x_0 x_1 eps max_its_n max_its_b :
  total f -> total df ->
  match result (solve f df x_0 x_1 eps max_its_n max_its_b) with
  | Ret r => meets_tolerance f eps r
  | Raise ZeroDivisionError =>
      result (newton_raphson f df x_0 eps max_its_n) = Raise ZeroDivisionError
  | Raise (ValueError a b) => a = x_0 /\ b = x_1
  | Raise (ConvergenceError msg) =>
      msg = ("bisection failed to converge after" ++ str max_its_b ++ " attempts.")%string
  | Raise (OtherError _) => False
  end.
Proof.
  intros Hf Hdf.
  rewrite (proj1 (solve_run f df x_0 x_1 eps max_its_n max_its_b)).
  rewrite result_newton_raphson.
  pose proof (newton_loop_total eps Hf Hdf (Z.to_nat max_its_n) x_0) as Hn.
  destruct (result (for_range _ (newton_body f df eps) _)) as [[r|x']|e].
  - exact Hn.
  - rewrite result_bisection.
    destruct (Hf x_0) as [y0 E0]. destruct (Hf x_1) as [y1 E1]. rewrite E0, E1.
    destruct (Bool.eqb _ _); [now split|].
    unfold bisection_loop.
    pose proof (@bisection_loop_total _ _ f eps Hf (Z.to_nat max_its_b) (x_0, x_1)) as Hb.
    destruct (result (for_range _ (bisection_body f eps) _)) as [[r|b']|e];
      [exact Hb | reflexivity | destruct Hb].
  - subst e. reflexivity.
Qed.

(** X8. [bisection] returns the first midpoint that meets the tolerance:
    when the loop has gone through [k < max_its] iterations without
    returning and the midpoint of the bracket it has reached meets the
    tolerance, that midpoint is the value returned. *)
Theorem bisection_returns_first_midpoint
    (f : handle R) x_0 x_1 eps max_its y0 y1 k b ym :
  f x_0 = Ret y0 -> f x_1 = Ret y1 ->
  Bool.eqb (sign_negative y0) (sign_negative y1) = false ->
  iterates f eps k (x_0, x_1) b ->
  k < Z.to_nat max_its ->
  f (midpoint b) = Ret ym -> ltb (abs ym) eps = true ->
  result (bisection f x_0 x_1 eps max_its) = Ret (midpoint b).
Proof.
  intros E0 E1 Es Hit Hk Em Et.
  rewrite result_bisection, E0, E1, Es. unfold bisection_loop.
  replace (Z.to_nat max_its) with (k + S (Z.to_nat max_its - S k)) by lia.
  rewrite (iterates_for_range Hit).
  rewrite result_for_range_S by apply frames_bisection_body.
  now rewrite result_bisection_body, Em, Et.
Qed.

Lemma bisection_loop_mirror (f : handle R) eps :
  total f -> (forall a b : R, add a b = add b a) ->
  forall n a b,
    opposite_signs f (a, b) ->
    result (for_range n (bisection_body f eps) (b, a)) =
    mirror (result (for_range n (bisection_body f eps) (a, b))).
Proof.
  intros Hf Hcomm n. induction n as [|n IH]; intros a b Hs; [reflexivity|].
  rewrite !result_for_range_S by apply frames_bisection_body.
  rewrite !result_bisection_body.
  assert (Em : midpoint (b, a) = midpoint (a, b))
    by (unfold midpoint; simpl; now rewrite Hcomm).
  rewrite Em. simpl fst. simpl snd.
  destruct Hs as (ya & yb & Ea & Eb & Hs). simpl in Ea, Eb.
  destruct (Hf (midpoint (a, b))) as [ym Eym]. rewrite Eym, Ea, Eb.
  destruct (ltb (abs ym) eps); [reflexivity|].
  destruct (sign_negative ym) eqn:Sm, (sign_negative ya) eqn:Sa,
           (sign_negative yb) eqn:Sb; simpl in Hs; try discriminate Hs; simpl;
    apply IH; eexists; eexists; simpl;
    (split; [eassumption|split; [eassumption|]]); now rewrite ?Sm, ?Sa, ?Sb.
Qed.

(** X9. The order of the endpoints does not matter to the value found: when
    [f] returns everywhere, the sum of two numbers does not depend on their
    order, and the endpoints are in opposite sign classes, [bisection] on
    [(x_1, x_0)] ends as [bisection] on [(x_0, x_1)] does. *)
Theorem bisection_endpoint_order (f : handle R) x_0 x_1 eps max_its :
  total f -> (forall a b : R, add a b = add b a) ->
  opposite_signs f (x_0, x_1) ->
  result (bisection f x_1 x_0 eps max_its) = result (bisection f x_0 x_1 eps max_its).
Proof.
  intros Hf Hcomm Hs. rewrite !result_bisection. unfold bisection_loop.
  rewrite (bisection_loop_mirror eps Hf Hcomm (Z.to_nat max_its) Hs).
  destruct Hs as (y0 & y1 & E0 & E1 & Hs). simpl in E0, E1. rewrite E0, E1.
  replace (Bool.eqb (sign_negative y1) (sign_negative y0)) with false
    by (rewrite Hs; now destruct (sign_negative y1)).
  replace (Bool.eqb (sign_negative y0) (sign_negative y1)) with false
    by (rewrite Hs; now destruct (sign_negative y1)).
  destruct (result (for_range _ _ _)) as [[r|[a b]]|e]; reflexivity.
Qed.

End Further.

(** ** Brackets of rationals *)

Section RationalBrackets.

Open Scope Q_scope.

Lemma bisection_step_halves (f : handle Q) eps b b' :
  result (bisection_body f eps b) = Ret (Next b') ->
  snd b' - fst b' == (snd b - fst b) * (1 # 2).
Proof.
  rewrite result_bisection_body.
  assert (Em : midpoint b == (fst b + snd b) * (1 # 2)).
  { unfold midpoint. change (div ?x two) with (Qred (x / 2)).
    change (add ?x ?y) with (Qred (x + y)). now rewrite !Qred_correct. }
  destruct (f (midpoint b)) as [ym|e]; [|discriminate].
  destruct (ltb (abs ym) eps); [discriminate|].
  destruct (f (fst b)) as [y0|e]; [|discriminate].
  destruct (Bool.eqb _ _); intro E; inversion E; subst b'; simpl;
    rewrite Em; ring.
Qed.

(** X4. On rationals every iteration of [bisection] that goes on halves the
    bracket: after [k] iterations its width, with its sign, is the original
    one divided by [2 ^ k]. *)
Theorem bisection_bracket_halves (f : handle Q) eps k b b' :
  iterates f eps k b b' ->
  (snd b' - fst b') * inject_Z (2 ^ Z.of_nat k) == snd b - fst b.
Proof.
  induction 1 as [b|k b b' b'' _ IH Hstep].
  - simpl. ring.
  - rewrite (bisection_step_halves _ _ _ Hstep).
    rewrite Nat2Z.inj_succ, Z.pow_succ_r by apply Nat2Z.is_nonneg.
    rewrite inject_Z_mult, <- IH. change (inject_Z 2) with 2. ring.
Qed.

End RationalBrackets.

(** ** The order of binary64 *)

Section FloatOrder.

(** [<=] on the specification of binary64 is transitive (a comparison with
    a NaN is false). *)
Lemma SFleb_trans (a b c : spec_float) :
  SFleb a b = true -> SFleb b c = true -> SFleb a c = true.
Proof.
  unfold SFleb, SFcompare.
  destruct a as [sa|sa| |sa ma ea], b as [sb|sb| |sb mb eb], c as [sc|sc| |sc mc ec];
    try discriminate; try reflexivity;
    repeat match goal with s : bool |- _ => destruct s end;
    try discriminate; try reflexivity;
    change (Pos.compare_cont Eq ?p ?q) with (Pos.compare p q);
    destruct (Z.compare_spec ea eb), (Z.compare_spec eb ec), (Z.compare_spec ea ec);
    try discriminate; try reflexivity; try lia;
    destruct (Pos.compare_spec ma mb), (Pos.compare_spec mb mc), (Pos.compare_spec ma mc);
    simpl; try discriminate; try reflexivity; intros; try lia.
Qed.

Lemma float_leb_trans (a b c : float) :
  leb a b = true -> leb b c = true -> leb a c = true.
Proof.
  change (PrimFloat.leb a b = true -> PrimFloat.leb b c = true ->
          PrimFloat.leb a c = true).
  rewrite !leb_spec. apply SFleb_trans.
Qed.

End FloatOrder.

(** ** Concrete runs *)

Section ConcreteRuns.

Open Scope float_scope.

Lemma solve_falls_back_only_on_convergence_error_witness :
  (result (solve f_square df_zero 1 2 eps7 20 20) = Raise ZeroDivisionError
   /\ never_enters_bisection (trace (solve f_square df_zero 1 2 eps7 20 20)))
  /\ result (solve f_square df_square 1 2 eps10 1 20)
     = result (bisection f_square 1 2 eps10 20).
Proof.
  split.
  - pose proof (@solve_falls_back_only_on_convergence_error
                  float _ f_square df_zero 1 2 eps7 20%Z 20%Z) as Hs.
    cbv zeta in Hs. destruct Hs as (_ & _ & _ & Hother).
    destruct (Hother ZeroDivisionError) as (Hr & _ & Hq);
      [reflexivity | intros msg; discriminate | now split].
  - pose proof (@solve_falls_back_only_on_convergence_error
                  float _ f_square df_square 1 2 eps10 1%Z 20%Z) as Hs.
    cbv zeta in Hs. destruct Hs as (_ & _ & Hfall & _).
    assert (Hn : result (newton_raphson f_square df_square 1 eps10 1) =
                 Raise (ConvergenceError
                          "Newton-Raphson failed to converge after1 attempts."))
      by reflexivity.
    exact (proj1 (Hfall _ Hn)).
Defined.

Lemma solve_returns_newton_result_witness :
  result (solve f_linear df_linear 1 5 eps7 20 20) = Ret 2
  /\ never_enters_bisection (trace (solve f_linear df_linear 1 5 eps7 20 20)).
Proof.
  assert (Hn : result (newton_raphson f_linear df_linear 1 eps7 20) = Ret 2)
    by (vm_compute; reflexivity).
  destruct (@solve_returns_newton_result
              float _ f_linear df_linear 1 eps7 20%Z 2 Hn 5 20%Z)
    as (Hr & _ & Hq & _).
  now split.
Defined.

Lemma newton_raphson_first_converged_iterate_witness :
  result (newton_raphson f_square df_square 1 eps7 20) = Ret (1.5 - 0.25 / 3)
  /\ result (newton_raphson f_square df_square 1 eps10 1)
     = Raise (ConvergenceError "Newton-Raphson failed to converge after1 attempts.").
Proof.
  split.
  - apply (proj1 (@newton_raphson_first_converged_iterate
                    float _ f_square df_square 1 eps7 20%Z) 2%nat).
    + simpl. lia.
    + reflexivity.
    + reflexivity.
    + intros j xj Hj Hit. assert (j = 1%nat) by lia. subst j.
      vm_compute in Hit. inversion Hit. reflexivity.
  - apply (proj2 (@newton_raphson_first_converged_iterate
                    float _ f_square df_square 1 eps10 1%Z)).
    intros j Hj. assert (j = 1%nat) by (simpl in Hj; lia). subst j.
    eexists. split; reflexivity.
Defined.

Lemma bisection_entry_test_witness :
  result (bisection line 3 5 eps10 20) = Raise (ValueError 3 5)
  /\ trace (bisection line 3 5 eps10 20) = [Enter Bisection; Eval F 3; Eval F 5].
Proof.
  assert (E0 : line 3 = Ret 1) by reflexivity.
  assert (E1 : line 5 = Ret 3) by reflexivity.
  apply (proj1 (@bisection_entry_test float _ line 3 5 eps10 20%Z 1 3 E0 E1)).
  reflexivity.
Defined.

Lemma bisection_sign_change_invariant_witness :
  opposite_signs line (1, 2.5).
Proof.
  assert (E0 : line 1 = Ret (-1)) by reflexivity.
  assert (E1 : line 4 = Ret 2) by reflexivity.
  assert (Es : Bool.eqb (sign_negative (-1)) (sign_negative 2) = false)
    by reflexivity.
  apply (proj1 (@bisection_sign_change_invariant float _ line 1 4 eps10 (-1) 2
                  E0 E1 Es) 1%nat).
  apply iterates_S with (b' := (1, 4)); [apply iterates_O | reflexivity].
Defined.

Lemma bisection_converges_counterexample :
  ~ bisection_converges line 1 4 eps10 1.
Proof.
  intro Hc. destruct Hc as (r & y & Hr & _).
  - exists 2, 0. repeat split; reflexivity.
  - exists (-1), 2. repeat split; reflexivity.
  - reflexivity.
  - reflexivity.
  - vm_compute in Hr. discriminate Hr.
Qed.

Lemma bisection_converges_or_exhausts_witness :
  result (bisection line 1 4 0.5 20) = Ret (midpoint (1, 2.5))
  /\ result (bisection line 1 4 eps10 1) =
     Raise (ConvergenceError "bisection failed to converge after1 attempts.").
Proof.
  assert (Htot : forall x : float, exists y, line x = Ret y)
    by (intro x; eexists; reflexivity).
  assert (Hs : opposite_signs line (1, 4))
    by (exists (-1), 2; repeat split; reflexivity).
  split.
  - apply (proj1 (@bisection_converges_or_exhausts float _ line 1 4 0.5 20%Z
                    Htot Hs) 1%nat (1, 2.5)).
    + simpl. lia.
    + reflexivity.
    + reflexivity.
    + intros j bj Hj Hbj. assert (j = 0%nat) by lia. subst j.
      simpl in Hbj. inversion Hbj. reflexivity.
  - apply (proj1 (proj2 (@bisection_converges_or_exhausts float _ line 1 4 eps10 1%Z
                           Htot Hs))).
    intros j bj Hj Hbj. assert (j = 0%nat) by (simpl in Hj; lia). subst j.
    simpl in Hbj. inversion Hbj. reflexivity.
Defined.

Lemma two_evaluations_per_iteration_counterexample :
  ~ bisection_two_per_iteration line 1 4 eps10 1
  /\ ~ newton_two_per_iteration f_square df_square 1 eps10 1.
Proof. split; intro Hc; vm_compute in Hc; apply Hc; reflexivity. Qed.

Lemma result_in_bracket_counterexample :
  ~ result_in_bracket f_hyperbola 0x1p1023 0x1.8p1023 1 20.
Proof.
  assert (Hr : result (bisection f_hyperbola 0x1p1023 0x1.8p1023 1 20) = Ret infinity)
    by reflexivity.
  intro Hc. destruct (Hc infinity Hr) as [_ Hhi].
  vm_compute in Hhi. discriminate Hhi.
Qed.

Lemma bisection_result_in_bracket_witness :
  leb (pymin 1 4) (midpoint (1, 2.5)) = true
  /\ leb (midpoint (1, 2.5)) (pymax 1 4) = true.
Proof.
  assert (Ho : ordered_endpoints 1 4 = true) by reflexivity.
  assert (Hm : midpoints_stay line 0.5 (Z.to_nat 20) (1, 4) = true) by reflexivity.
  assert (Hr : result (bisection line 1 4 0.5 20) = Ret (midpoint (1, 2.5)))
    by reflexivity.
  exact (@bisection_result_in_bracket float _ line 1 4 0.5 20%Z
           float_leb_trans Ho Hm (midpoint (1, 2.5)) Hr).
Defined.

End ConcreteRuns.

(** ** Concrete runs for the further properties *)

Section FurtherRuns.

Lemma total_line (R : Type) `{Arith R} : total (line (R := R)).
Proof. intro x. eexists. reflexivity. Qed.

Lemma total_f_square : total f_square.
Proof. intro x. eexists. reflexivity. Qed.

Lemma total_df_square : total df_square.
Proof. intro x. eexists. reflexivity. Qed.

Lemma Q_add_comm (a b : Q) : add a b = add b a.
Proof. apply Qred_complete, Qplus_comm. Qed.

Open Scope float_scope.

Lemma newton_raphson_zero_derivative_witness :
  result (newton_raphson f_square df_square 0 eps7 20) = Raise ZeroDivisionError
  /\ trace (newton_raphson f_square df_square 0 eps7 20)
     = [Enter Newton; Eval F 0; Eval DF 0].
Proof.
  assert (Ef : f_square 0 = Ret (-2)) by reflexivity.
  assert (Edf : df_square 0 = Ret 0) by reflexivity.
  apply (@newton_raphson_zero_derivative float _ f_square df_square 0 eps7 20%Z
           (-2) 0); [reflexivity | exact Ef | exact Edf | reflexivity].
Defined.

Lemma returned_values_meet_tolerance_witness :
  meets_tolerance f_linear eps7 2.
Proof.
  assert (Hs : result (solve f_linear df_linear 1 5 eps7 20 20) = Ret 2)
    by reflexivity.
  exact (proj2 (proj2 (@returned_values_meet_tolerance
                         float _ f_linear df_linear 1 5 eps7 20%Z 20%Z 2)) Hs).
Defined.

Lemma nonpositive_budget_witness :
  result (newton_raphson line df_linear 1 eps10 (-3)) =
    Raise (ConvergenceError "Newton-Raphson failed to converge after-3 attempts.")
  /\ result (bisection line 1 4 eps10 (-3)) =
     Raise (ConvergenceError "bisection failed to converge after-3 attempts.")
  /\ trace (bisection line 1 4 eps10 (-3)) = [Enter Bisection; Eval F 1; Eval F 4].
Proof.
  assert (E0 : line 1 = Ret (-1)) by reflexivity.
  assert (E1 : line 4 = Ret 2) by reflexivity.
  assert (Hle : (-3 <= 0)%Z) by lia.
  destruct (@nonpositive_budget float _ line df_linear 1 4 eps10 (-3)%Z (-1) 2
              Hle E0 E1) as [[Hn _] [Hb Ht]].
  split; [exact Hn|split; [exact Hb|exact Ht]].
Defined.

Lemma newton_exhaustion_counts_witness :
  evaluations (only F) (trace (newton_raphson f_square df_square 1 eps10 1)) = 2%nat
  /\ evaluations (only DF) (trace (newton_raphson f_square df_square 1 eps10 1)) = 1%nat.
Proof.
  assert (Hr : result (newton_raphson f_square df_square 1 eps10 1) =
               Raise (ConvergenceError
                        "Newton-Raphson failed to converge after1 attempts."))
    by reflexivity.
  exact (proj2 (@newton_exhaustion_counts float _ f_square df_square 1 eps10 1%Z _
                  total_f_square total_df_square Hr)).
Defined.

Lemma solve_outcomes_witness :
  match result (solve f_square df_square 1 2 eps10 1 1) with
  | Ret r => meets_tolerance f_square eps10 r
  | Raise ZeroDivisionError =>
      result (newton_raphson f_square df_square 1 eps10 1) = Raise ZeroDivisionError
  | Raise (ValueError a b) => a = 1 /\ b = 2
  | Raise (ConvergenceError msg) =>
      msg = "bisection failed to converge after1 attempts."%string
  | Raise (OtherError _) => False
  end.
Proof.
  exact (@solve_outcomes float _ f_square df_square 1 2 eps10 1%Z 1%Z
           total_f_square total_df_square).
Defined.

Lemma bisection_returns_first_midpoint_witness :
  result (bisection line 1 4 0.5 20) = Ret (midpoint (1, 2.5)).
Proof.
  assert (E0 : line 1 = Ret (-1)) by reflexivity.
  assert (E1 : line 4 = Ret 2) by reflexivity.
  assert (Es : Bool.eqb (sign_negative (-1)) (sign_negative 2) = false)
    by reflexivity.
  assert (Hit : iterates line 0.5 1 (1, 4) (1, 2.5))
    by (apply iterates_S with (b' := (1, 4)); [apply iterates_O | reflexivity]).
  assert (Em : line (midpoint (1, 2.5)) = Ret (-0.25)) by reflexivity.
  apply (@bisection_returns_first_midpoint float _ line 1 4 0.5 20%Z (-1) 2
           1%nat (1, 2.5) (-0.25) E0 E1 Es Hit); [simpl; lia | exact Em | reflexivity].
Defined.

Lemma bisection_endpoint_order_witness :
  result (bisection line 4%Q 1%Q (1 # 1024)%Q 20) =
  result (bisection line 1%Q 4%Q (1 # 1024)%Q 20).
Proof.
  apply (@bisection_endpoint_order Q _ line 1%Q 4%Q (1 # 1024)%Q 20%Z
           (total_line (R := Q)) Q_add_comm).
  exists (-1)%Q, 2%Q. repeat split; reflexivity.
Defined.

Lemma bisection_bracket_halves_witness :
  (((5 # 2) - 1) * inject_Z (2 ^ 1) == 4 - 1)%Q.
Proof.
  assert (Hit : iterates line (1 # 1024)%Q 1 (1%Q, 4%Q) (1%Q, (5 # 2)%Q))
    by (apply iterates_S with (b' := (1%Q, 4%Q)); [apply iterates_O | reflexivity]).
  exact (@bisection_bracket_halves line (1 # 1024)%Q 1%nat _ _ Hit).
Defined.

End FurtherRuns.
